(** * aggregate_principals.py: joining crew, principals and names per film

    A shallow embedding of [src/aggregate_principals.py] and the properties
    of its pipeline (load, filter, join, split, resolve, write).

    Modelling conventions.
    - A pandas [DataFrame] is a list of (index label, row) pairs, in row
      order; each table has its own record of the columns the script uses.
      Cells of the columns used are strings (no missing values).
    - [pd.read_csv] is not modelled: the three parsed tables are inputs.
      The crew table has the columns tconst, directors, writers, so that
      tconst is the only column [pd.merge] joins on.
    - Assigning a list through [iloc[i,j]] makes it the value of that cell.
    - A written file is kept as its header and rows of fields; the text of
      a field is not modelled.
    - The [CrewReader] object, the local dict [mappings], standard output
      and the files written live in one machine state, threaded through a
      state-and-exception monad; an exception keeps the state reached. *)

From Stdlib Require Import Ascii String.
From stdpp Require Import base list strings gmap sorting.

Local Open Scope string_scope.
Local Open Scope list_scope.

(** * Python strings *)

(** [s.split(sep)] for a one-character separator: every occurrence of
    [sep] ends a piece, so the result is never empty. *)
Fixpoint str_split (sep : ascii) (s : string) : list string :=
  match s with
  | EmptyString => [EmptyString]
  | String c s' =>
      if Ascii.eqb c sep then EmptyString :: str_split sep s'
      else match str_split sep s' with
           | w :: ws => String c w :: ws
           | [] => [String c EmptyString]
           end
  end.

(** [sep.join(l)] for a one-character separator. *)
Fixpoint str_join (sep : ascii) (l : list string) : string :=
  match l with
  | [] => EmptyString
  | x :: rest =>
      match rest with
      | [] => x
      | _ :: _ => x +:+ String sep (str_join sep rest)
      end
  end.

(** The character [c] does not occur in [s]. *)
Fixpoint no_char (c : ascii) (s : string) : bool :=
  match s with
  | EmptyString => true
  | String a s' => negb (Ascii.eqb a c) && no_char c s'
  end.

Definition comma : ascii := ","%char.

(** * Tables *)

(** movies of interest *)
Definition MOVIE_IDS : list string :=
  ["tt0050083"; "tt0062622"; "tt0066921"; "tt0026778"; "tt0044081";
   "tt0042192"; "tt0074119"; "tt0069704"; "tt0075686"; "tt0078788";
   "tt0052618"; "tt0083658"; "tt0061418"; "tt0029947"; "tt0064115";
   "tt0068327"; "tt0034583"; "tt0071315"; "tt0033467"; "tt0021749";
   "tt0097216"; "tt0036775"; "tt0057012"; "tt0023969"; "tt0064276";
   "tt0109830"; "tt0031381"; "tt0099685"; "tt0044706"; "tt0061811";
   "tt0025316"; "tt0038650"; "tt0073195"; "tt0024216"; "tt0056172";
   "tt0066026"; "tt0064665"; "tt0027977"; "tt0031679"; "tt0073440";
   "tt0074958"; "tt0053125"; "tt0047296"; "tt0073486"; "tt0091763";
   "tt0054215"; "tt0110912"; "tt0081398"; "tt0082971"; "tt0047396";
   "tt0075148"; "tt0120815"; "tt0108052"; "tt0046303"; "tt0045152";
   "tt0029583"; "tt0053291"; "tt0084707"; "tt0054331"; "tt0076759";
   "tt0034240"; "tt0018455"; "tt0043014"; "tt0028333"; "tt0075314";
   "tt0043265"; "tt0053604"; "tt0036868"; "tt0050212"; "tt0077416";
   "tt0067116"; "tt0017925"; "tt0068646"; "tt0071562"; "tt0015864";
   "tt0061722"; "tt0032551"; "tt0067328"; "tt0120737"; "tt0033870";
   "tt0032904"; "tt0049730"; "tt0111161"; "tt0102926"; "tt0167404";
   "tt0059742"; "tt0040897"; "tt0065214"; "tt0032138"; "tt0120338";
   "tt0056592"; "tt0084805"; "tt0114709"; "tt0105695"; "tt0052357";
   "tt0055614"; "tt0061184"; "tt0035575"].

(** A frame: rows in order, each with its index label. *)
Abbreviation DataFrame R := (list (nat * R)).

(** The fresh [RangeIndex] 0, 1, ... that [reset_index] and [pd.merge]
    give their result. *)
Definition range_index {R : Type} (rows : list R) : DataFrame R :=
  zip (seq 0 (length rows)) rows.

(** title.crew: one row per film, the person lists comma-joined. *)
Module Crew.
Record row := { tconst : string; directors : string; writers : string }.
End Crew.

(** title.principals: many rows per film. *)
Module Principals.
Record row := { tconst : string; nconst : string; category : string }.
End Principals.

(** name.basics: person identifier to display name. *)
Module Names.
Record row := { nconst : string; primaryName : string }.
End Names.

(** The aggregated actors: per film, its actors' identifiers comma-joined. *)
Module Actors.
Record row := { tconst : string; nconst : string }.
End Actors.

(** The result of [pd.merge], before the split. *)
Module Joined.
Record row :=
  { tconst : string; directors : string; writers : string; nconst : string }.
End Joined.

(** [merged_crew]: columns tconst, directors, writers, actors, in that
    order. The three list columns hold identifiers after [merge_crew] and
    names once [map_crew] has replaced them. *)
Module Merged.
Record row :=
  { tconst : string;
    directors : list string;
    writers : list string;
    actors : list string }.
End Merged.

(** The positions 1, 2, 3 of [for j in [1,2,3]]. *)
Inductive ListCol := Col1 | Col2 | Col3.

Definition col_get (j : ListCol) (r : Merged.row) : list string :=
  match j with
  | Col1 => Merged.directors r
  | Col2 => Merged.writers r
  | Col3 => Merged.actors r
  end.

Definition col_set (j : ListCol) (v : list string) (r : Merged.row) : Merged.row :=
  match j with
  | Col1 => {| Merged.tconst := Merged.tconst r; Merged.directors := v;
               Merged.writers := Merged.writers r; Merged.actors := Merged.actors r |}
  | Col2 => {| Merged.tconst := Merged.tconst r; Merged.directors := Merged.directors r;
               Merged.writers := v; Merged.actors := Merged.actors r |}
  | Col3 => {| Merged.tconst := Merged.tconst r; Merged.directors := Merged.directors r;
               Merged.writers := Merged.writers r; Merged.actors := v |}
  end.

(** * The pandas operations the script calls *)

(** [df.loc[df.tconst.isin(ids)]]: keeps rows and their labels. *)
Definition crew_isin (ids : list string) (df : DataFrame Crew.row) : DataFrame Crew.row :=
  filter (λ ir, Crew.tconst ir.2 ∈ ids) df.

Definition principals_isin (ids : list string) (df : DataFrame Principals.row)
  : DataFrame Principals.row :=
  filter (λ ir, Principals.tconst ir.2 ∈ ids) df.

(** [df.loc[df.category == "actor",]] *)
Definition loc_actor (df : DataFrame Principals.row) : DataFrame Principals.row :=
  filter (λ ir, Principals.category ir.2 = "actor") df.

(** The order of group keys: [groupby] sorts them. *)
Definition str_le (a b : string) : Prop := String.leb a b = true.

Global Instance str_le_dec a b : Decision (str_le a b).
Proof. unfold str_le. apply _. Defined.

(** [df.groupby("tconst")["nconst"].apply(lambda x: ','.join(x)).reset_index()]:
    one row per distinct film, keys sorted, each group in row order. *)
Definition groupby_join (df : DataFrame Principals.row) : DataFrame Actors.row :=
  let rows := df.*2 in
  let keys := merge_sort str_le (remove_dups (Principals.tconst <$> rows)) in
  range_index
    ((λ k, {| Actors.tconst := k;
              Actors.nconst :=
                str_join comma
                  (Principals.nconst <$> filter (λ r, Principals.tconst r = k) rows) |})
       <$> keys).

(** [pd.merge(left, right, how="inner")]: the only common column is
    tconst; every left row with a match is kept, in the documented left
    order, and the result has a fresh index. (When the left table repeats
    a key, older pandas put the rows of a key next to each other; with
    distinct left keys the order is the same.) *)
Definition pd_merge (left : DataFrame Crew.row) (right : DataFrame Actors.row)
  : DataFrame Joined.row :=
  range_index
    (c ← left.*2;
     a ← filter (λ a, Actors.tconst a = Crew.tconst c) right.*2;
     [ {| Joined.tconst := Crew.tconst c;
          Joined.directors := Crew.directors c;
          Joined.writers := Crew.writers c;
          Joined.nconst := Actors.nconst a |} ]).

(** The three [.str.split(',')] assignments followed by the selection of
    the four columns, on one row. *)
Definition split_row (j : Joined.row) : Merged.row :=
  {| Merged.tconst := Joined.tconst j;
     Merged.directors := str_split comma (Joined.directors j);
     Merged.writers := str_split comma (Joined.writers j);
     Merged.actors := str_split comma (Joined.nconst j) |}.

(** On the whole frame; row labels are kept. *)
Definition split_columns (df : DataFrame Joined.row) : DataFrame Merged.row :=
  (λ ir, (ir.1, split_row ir.2)) <$> df.

(** [df.shape] *)
Definition shape {R : Type} (ncols : nat) (df : DataFrame R) : nat * nat :=
  (length df, ncols).

(** * Machine state and the monad of the methods *)

Inductive exn := IndexError | AttributeError.

(** What [print] received. *)
Inductive Printed :=
  | PrintActors (df : DataFrame Actors.row)
  | PrintShape (sh : nat * nat)
  | PrintMerged (df : DataFrame Merged.row)
  | PrintName (name : string).

(** A field of a written row: the index label, a string cell, or a list
    cell (written as the list's text). *)
Inductive CsvField :=
  | FIndex (i : nat)
  | FStr (s : string)
  | FList (l : list string).

(** A delimited text file: its header row and its data rows. *)
Record CsvFile := { csv_header : list string; csv_rows : list (list CsvField) }.

(** The attributes of a [CrewReader]; [merged_crew] exists only once
    [merge_crew] has run. *)
Record CrewReader := {
  crew : DataFrame Crew.row;
  principals : DataFrame Principals.row;
  names : DataFrame Names.row;
  merged_crew : option (DataFrame Merged.row)
}.

Record Machine := {
  self : CrewReader;
  (** the dict [mappings] of [map_crew] *)
  mappings : gmap string string;
  (** everything printed so far, oldest first *)
  stdout : list Printed;
  (** the identifiers the names table was searched for, oldest first *)
  names_queries : list string;
  (** the files written *)
  files : gmap string CsvFile
}.

Definition set_merged_crew (df : DataFrame Merged.row) (m : Machine) : Machine :=
  {| self := {| crew := crew (self m); principals := principals (self m);
                names := names (self m); merged_crew := Some df |};
     mappings := mappings m; stdout := stdout m;
     names_queries := names_queries m; files := files m |}.

Definition set_mappings (mp : gmap string string) (m : Machine) : Machine :=
  {| self := self m; mappings := mp; stdout := stdout m;
     names_queries := names_queries m; files := files m |}.

Definition add_stdout (p : Printed) (m : Machine) : Machine :=
  {| self := self m; mappings := mappings m; stdout := stdout m ++ [p];
     names_queries := names_queries m; files := files m |}.

Definition add_query (nconst : string) (m : Machine) : Machine :=
  {| self := self m; mappings := mappings m; stdout := stdout m;
     names_queries := names_queries m ++ [nconst]; files := files m |}.

Definition set_file (path : string) (f : CsvFile) (m : Machine) : Machine :=
  {| self := self m; mappings := mappings m; stdout := stdout m;
     names_queries := names_queries m; files := <[path := f]> (files m) |}.

(** A computation: from a state to a value or an exception, and the
    state reached. *)
Definition M (A : Type) : Type := Machine → (exn + A) * Machine.

Global Instance M_ret : MRet M := λ A a m, (inr a, m).

Global Instance M_bind : MBind M := λ A B f c m,
  match c m with
  | (inr a, m') => f a m'
  | (inl e, m') => (inl e, m')
  end.

Definition raise {A : Type} (e : exn) : M A := λ m, (inl e, m).
Definition get : M Machine := λ m, (inr m, m).
Definition modify (f : Machine → Machine) : M unit := λ m, (inr (), f m).
Definition print (p : Printed) : M unit := modify (add_stdout p).

(** [for x in l: body(x)] *)
Fixpoint for_each {A : Type} (l : list A) (body : A → M unit) : M unit :=
  match l with
  | [] => mret ()
  | x :: l' => body x;; for_each l' body
  end.

(** [self.merged_crew], an [AttributeError] before [merge_crew]. *)
Definition get_merged_crew : M (DataFrame Merged.row) :=
  m ← get;
  match merged_crew (self m) with
  | Some df => mret df
  | None => raise AttributeError
  end.

(** * CrewReader *)

(** [__init__]: the three tables as read, crew and principals restricted
    to the movies of interest; [ids] is the value of the global
    [MOVIE_IDS] at the call. *)
Definition init (ids : list string)
    (crew_tsv : DataFrame Crew.row) (principals_tsv : DataFrame Principals.row)
    (names_tsv : DataFrame Names.row) : CrewReader :=
  {| crew := crew_isin ids crew_tsv;
     principals := principals_isin ids principals_tsv;
     names := names_tsv;
     merged_crew := None |}.

Definition merge_crew : M unit :=
  m ← get;
  (* filter principals for actors only *)
  let actors := loc_actor (principals (self m)) in
  (* aggregate actors *)
  let actors := groupby_join actors in
  print (PrintActors actors);;
  (* merge actors and writers/directors into a single dataset *)
  let joined := pd_merge (crew (self m)) actors in
  print (PrintShape (shape 4 joined));;
  (* split fields in columns along commas, keep the four columns *)
  let merged := split_columns joined in
  modify (set_merged_crew merged);;
  print (PrintShape (shape 4 merged));;
  print (PrintMerged merged).

(** [self.names.loc[self.names.nconst == nconst, "primaryName"].values] *)
Definition names_loc (names : DataFrame Names.row) (nconst : string) : list string :=
  Names.primaryName <$> filter (λ r, Names.nconst r = nconst) names.*2.

(** The body of [for nconst in field], up to the value of [name]. *)
Definition resolve (nconst : string) : M string :=
  m ← get;
  (* try and query the mapping *)
  match mappings m !! nconst with
  | Some name => mret name
  | None =>
      (* get the mapping and store *)
      modify (add_query nconst);;
      match names_loc (names (self m)) nconst !! 0 with
      | Some name =>
          modify (λ m, set_mappings (<[nconst := name]> (mappings m)) m);;
          mret name
      | None => raise IndexError
      end
  end.

(** [for nconst in field], with the list [names] built so far. *)
Fixpoint for_nconst (field : list string) (names : list string) : M (list string) :=
  match field with
  | [] => mret names
  | nconst :: rest =>
      name ← resolve nconst;
      print (PrintName name);;
      for_nconst rest (names ++ [name])
  end.

(** [self.merged_crew.iloc[i,j]] *)
Definition iloc_get (i : nat) (j : ListCol) : M (list string) :=
  df ← get_merged_crew;
  match df !! i with
  | Some ir => mret (col_get j ir.2)
  | None => raise IndexError
  end.

(** [self.merged_crew.iloc[i,j] = v]: the list [v] becomes the value of
    the cell. *)
Definition iloc_set (i : nat) (j : ListCol) (v : list string) : M unit :=
  df ← get_merged_crew;
  match df !! i with
  | Some ir => modify (set_merged_crew (<[i := (ir.1, col_set j v ir.2)]> df))
  | None => raise IndexError
  end.

(** The body of [for j in [1,2,3]]. *)
Definition map_cell (i : nat) (j : ListCol) : M unit :=
  field ← iloc_get i j;
  names ← for_nconst field [];
  iloc_set i j names.

Definition map_crew : M unit :=
  (* store the mapping, to avoid re-searching *)
  modify (set_mappings ∅);;
  df ← get_merged_crew;
  for_each (seq 0 (length df)) (λ i,
    for_each [Col1; Col2; Col3] (λ j, map_cell i j)).

(** [df.to_csv(path)] with the default arguments: a header row, the index
    as the unnamed first column, one line per row. *)
Definition to_csv (df : DataFrame Merged.row) : CsvFile :=
  {| csv_header := [""; "tconst"; "directors"; "writers"; "actors"];
     csv_rows :=
       (λ ir, [FIndex ir.1; FStr (Merged.tconst ir.2); FList (Merged.directors ir.2);
               FList (Merged.writers ir.2); FList (Merged.actors ir.2)]) <$> df |}.

Definition write_to_csv (output_file : string) : M unit :=
  df ← get_merged_crew;
  modify (set_file output_file (to_csv df)).

(** The state in which the methods of a fresh [CrewReader] run. *)
Definition boot (r : CrewReader) (fs : gmap string CsvFile) : Machine :=
  {| self := r; mappings := ∅; stdout := []; names_queries := []; files := fs |}.

(** The three method calls of the script on a reader. *)
Definition run_methods : M unit :=
  merge_crew;; map_crew;; write_to_csv "crew_info.csv".

(** The script with the movies of interest [ids]: [fs] holds the files
    present before the run. *)
Definition pipeline (ids : list string)
    (crew_tsv : DataFrame Crew.row) (principals_tsv : DataFrame Principals.row)
    (names_tsv : DataFrame Names.row) (fs : gmap string CsvFile)
  : (exn + unit) * Machine :=
  run_methods (boot (init ids crew_tsv principals_tsv names_tsv) fs).

(** [__main__] *)
Definition main := pipeline MOVIE_IDS.

(** * The scenario of the specification *)

Definition ex_crew : DataFrame Crew.row :=
  [(0, {| Crew.tconst := "tt0001"; Crew.directors := "nm1,nm2"; Crew.writers := "nm3" |})].

Definition ex_principals : DataFrame Principals.row :=
  [(0, {| Principals.tconst := "tt0001"; Principals.nconst := "nm4"; Principals.category := "actor" |});
   (1, {| Principals.tconst := "tt0001"; Principals.nconst := "nm5"; Principals.category := "actor" |});
   (2, {| Principals.tconst := "tt0001"; Principals.nconst := "nm6"; Principals.category := "director" |})].

Definition ex_names : DataFrame Names.row :=
  [(0, {| Names.nconst := "nm1"; Names.primaryName := "A" |});
   (1, {| Names.nconst := "nm2"; Names.primaryName := "B" |});
   (2, {| Names.nconst := "nm3"; Names.primaryName := "C" |});
   (3, {| Names.nconst := "nm4"; Names.primaryName := "D" |});
   (4, {| Names.nconst := "nm5"; Names.primaryName := "E" |})].

Definition ex_row : Merged.row :=
  {| Merged.tconst := "tt0001"; Merged.directors := ["A"; "B"];
     Merged.writers := ["C"]; Merged.actors := ["D"; "E"] |}.

(** * Specification vocabulary *)

(** The actors of film [k], in row order, among the principals [ps]. *)
Definition actors_of (k : string) (ps : DataFrame Principals.row) : list string :=
  Principals.nconst <$> filter (λ r, Principals.tconst r = k) (loc_actor ps).*2.

(** The table [merge_crew] stores in [self.merged_crew]. *)
Definition merged_of (r : CrewReader) : DataFrame Merged.row :=
  split_columns (pd_merge (crew r) (groupby_join (loc_actor (principals r)))).

(** What a row of the merged table is made of. *)
Definition merged_row (rd : CrewReader) (c : Crew.row) : Merged.row :=
  {| Merged.tconst := Crew.tconst c;
     Merged.directors := str_split comma (Crew.directors c);
     Merged.writers := str_split comma (Crew.writers c);
     Merged.actors :=
       str_split comma (str_join comma (actors_of (Crew.tconst c) (principals rd))) |}.

Definition has_actor (ps : DataFrame Principals.row) (k : string) : Prop :=
  ∃ p, p ∈ ps.*2 ∧ Principals.tconst p = k ∧ Principals.category p = "actor".

(** [outcome x Q E]: the run [x] ended with a value and state satisfying
    [Q], or with an exception and state satisfying [E]. *)
Definition outcome {A : Type} (x : (exn + A) * Machine)
    (Q : A → Machine → Prop) (E : exn → Machine → Prop) : Prop :=
  match x with
  | (inr a, m') => Q a m'
  | (inl e, m') => E e m'
  end.

(** The source tables and the files are the same in [m'] as in [m]. *)
Record preserved (m m' : Machine) : Prop := {
  pres_crew : crew (self m') = crew (self m);
  pres_principals : principals (self m') = principals (self m);
  pres_names : names (self m') = names (self m);
  pres_files : files m' = files m
}.

(** The display name of the first row of the names table, in table order,
    whose identifier is [nconst]. *)
Definition first_name (nm : DataFrame Names.row) (nconst : string) : option string :=
  names_loc nm nconst !! 0.

(** Every entry of [mappings] is what the names table gives. *)
Definition cache_ok (m : Machine) : Prop :=
  ∀ id v, mappings m !! id = Some v → first_name (names (self m)) id = Some v.

(** Since [names_queries] was [base], the names table was searched for
    the identifiers [qs], each at most once. *)
Definition queried (base : list string) (m : Machine) (qs : list string) : Prop :=
  names_queries m = base ++ qs ∧ NoDup qs.

(** The invariant of the pass: the cache is sound, and every identifier
    searched for since [base] is in it. *)
Definition inv (base : list string) (m : Machine) : Prop :=
  cache_ok m ∧
  ∃ qs, queried base m qs ∧ ∀ id, id ∈ qs → is_Some (mappings m !! id).

(** The first names of a list of identifiers, when all of them have one. *)
Definition all_names (nm : DataFrame Names.row) (ids names : list string) : Prop :=
  Some <$> names = first_name nm <$> ids.

(** Some identifier of the list has no row in the names table. *)
Definition some_missing (nm : DataFrame Names.row) (ids : list string) : Prop :=
  ∃ id, id ∈ ids ∧ first_name nm id = None.

(** [row'] is [row] with every identifier replaced by its first name. *)
Definition resolved (nm : DataFrame Names.row) (row row' : Merged.row) : Prop :=
  Merged.tconst row' = Merged.tconst row ∧
  all_names nm (Merged.directors row) (Merged.directors row') ∧
  all_names nm (Merged.writers row) (Merged.writers row') ∧
  all_names nm (Merged.actors row) (Merged.actors row').

(** Some identifier of one of the three lists of [row] has no name. *)
Definition row_missing (nm : DataFrame Names.row) (row : Merged.row) : Prop :=
  ∃ j, some_missing nm (col_get j row).

(** Same rows labels and same film identifiers, row by row. *)
Definition same_shape (df df' : DataFrame Merged.row) : Prop :=
  df'.*1 = df.*1 ∧ Merged.tconst <$> df'.*2 = Merged.tconst <$> df.*2.

(** The rows of [df'] are those of [df], resolved, under the same labels. *)
Definition resolved_frame (nm : DataFrame Names.row)
    (df df' : DataFrame Merged.row) : Prop :=
  Forall2 (λ x y, y.1 = x.1 ∧ resolved nm x.2 y.2) df df'.

(** Some row of [df] holds an identifier without a name. *)
Definition frame_missing (nm : DataFrame Names.row) (df : DataFrame Merged.row) : Prop :=
  ∃ (i l : nat) row, df !! i = Some (l, row) ∧ row_missing nm row.

(** * Sample runs *)

Definition run_crew : DataFrame Crew.row :=
  [(0, {| Crew.tconst := "tt0050083"; Crew.directors := "nm0001486";
          Crew.writers := "nm0741627" |});
   (1, {| Crew.tconst := "tt9999999"; Crew.directors := "nm0001486";
          Crew.writers := "\N" |})].

Definition run_principals : DataFrame Principals.row :=
  [(0, {| Principals.tconst := "tt0050083"; Principals.nconst := "nm0000020";
          Principals.category := "actor" |});
   (1, {| Principals.tconst := "tt0050083"; Principals.nconst := "nm0002011";
          Principals.category := "actor" |});
   (2, {| Principals.tconst := "tt0050083"; Principals.nconst := "nm0001486";
          Principals.category := "director" |});
   (3, {| Principals.tconst := "tt9999999"; Principals.nconst := "nm0000020";
          Principals.category := "actor" |})].

Definition run_names : DataFrame Names.row :=
  [(0, {| Names.nconst := "nm0000020"; Names.primaryName := "Henry Fonda" |});
   (1, {| Names.nconst := "nm0001486"; Names.primaryName := "Sidney Lumet" |});
   (2, {| Names.nconst := "nm0002011"; Names.primaryName := "Lee J. Cobb" |});
   (3, {| Names.nconst := "nm0741627"; Names.primaryName := "Reginald Rose" |})].

(** The same names without the second actor. *)
Definition run_names_short : DataFrame Names.row := take 2 run_names.

(** The merged row of the scenario before resolution. *)
Definition ex_row_ids : Merged.row :=
  {| Merged.tconst := "tt0001"; Merged.directors := ["nm1"; "nm2"];
     Merged.writers := ["nm3"]; Merged.actors := ["nm4"; "nm5"] |}.

(** The state after [merge_crew] on the movie-of-interest run. *)
Definition run_merged (nm : DataFrame Names.row) : Machine :=
  (merge_crew (boot (init MOVIE_IDS run_crew run_principals nm) ∅)).2.

(** A state in which the second actor of the run is already cached. *)
Definition run_cached : Machine :=
  set_mappings {[ "nm0002011" := "Lee J. Cobb" ]} (run_merged run_names).

(** A reader whose crew row has the marker in both fields. *)
Definition marker_crew : DataFrame Crew.row :=
  [(0, {| Crew.tconst := "tt0050083"; Crew.directors := "\N"; Crew.writers := "\N" |})].

Definition marker_machine : Machine :=
  boot (init MOVIE_IDS marker_crew run_principals run_names) ∅.

(** A names table in which nm0000020 has two rows. *)
Definition dup_names : DataFrame Names.row :=
  [(0, {| Names.nconst := "nm0001486"; Names.primaryName := "Sidney Lumet" |});
   (1, {| Names.nconst := "nm0000020"; Names.primaryName := "Henry Fonda" |});
   (2, {| Names.nconst := "nm0000020"; Names.primaryName := "H. Fonda" |})].

Definition dup_machine : Machine :=
  boot (init MOVIE_IDS run_crew run_principals dup_names) ∅.

(** * Further vocabulary *)

(** The identifiers of the rows of [ps] for film [k] whose category is
    "actor", in row order. *)
Definition film_actors (k : string) (ps : DataFrame Principals.row) : list string :=
  Principals.nconst <$>
    filter (λ p, Principals.tconst p = k ∧ Principals.category p = "actor") ps.*2.

(** The identifiers of a merged row, in the order [map_crew] meets them. *)
Definition row_ids (row : Merged.row) : list string :=
  Merged.directors row ++ Merged.writers row ++ Merged.actors row.

(** The identifiers of a merged table, in the order [map_crew] meets them. *)
Definition frame_ids (df : DataFrame Merged.row) : list string :=
  df.*2 ≫= row_ids.

(** Since [names_queries] was [base], the pass has met the identifiers
    [seen]: those are the identifiers searched for, and the keys of
    [mappings]. *)
Definition tracked (base seen : list string) (m : Machine) : Prop :=
  ∃ qs, names_queries m = base ++ qs ∧
        (∀ id, id ∈ qs ↔ id ∈ seen) ∧
        (∀ id, is_Some (mappings m !! id) ↔ id ∈ seen).

(** A crew source that holds the same film twice. *)
Definition repeated_crew : DataFrame Crew.row :=
  [(0, {| Crew.tconst := "tt0050083"; Crew.directors := "nm0001486";
          Crew.writers := "nm0741627" |});
   (1, {| Crew.tconst := "tt0050083"; Crew.directors := "nm0001486";
          Crew.writers := "nm0741627" |})].

(** Three distinct films, not in the order of their identifiers; the
    second is not a movie of interest. *)
Definition order_crew : DataFrame Crew.row :=
  [(0, {| Crew.tconst := "tt0062622"; Crew.directors := "nm0000040";
          Crew.writers := "nm0000040" |});
   (1, {| Crew.tconst := "tt9999999"; Crew.directors := "nm0001486";
          Crew.writers := "nm0741627" |});
   (2, {| Crew.tconst := "tt0050083"; Crew.directors := "nm0001486";
          Crew.writers := "nm0741627" |})].

Definition order_principals : DataFrame Principals.row :=
  [(0, {| Principals.tconst := "tt0050083"; Principals.nconst := "nm0000020";
          Principals.category := "actor" |});
   (1, {| Principals.tconst := "tt0062622"; Principals.nconst := "nm0001158";
          Principals.category := "actor" |});
   (2, {| Principals.tconst := "tt9999999"; Principals.nconst := "nm0000020";
          Principals.category := "actor" |})].

Definition order_names : DataFrame Names.row :=
  [(0, {| Names.nconst := "nm0000020"; Names.primaryName := "Henry Fonda" |});
   (1, {| Names.nconst := "nm0000040"; Names.primaryName := "Stanley Kubrick" |});
   (2, {| Names.nconst := "nm0001158"; Names.primaryName := "Keir Dullea" |});
   (3, {| Names.nconst := "nm0001486"; Names.primaryName := "Sidney Lumet" |});
   (4, {| Names.nconst := "nm0741627"; Names.primaryName := "Reginald Rose" |})].

(** * Proofs *)

(** ** Splitting and joining *)

Section strings.
Variable sep : ascii.

Lemma str_split_nonempty (s : string) : str_split sep s ≠ [].
Proof.
  induction s as [|c s IH]; simpl; [done|].
  destruct (Ascii.eqb c sep); [done|].
  by destruct (str_split sep s).
Qed.

Lemma str_split_no_char (s : string) :
  no_char sep s = true → str_split sep s = [s].
Proof.
  induction s as [|c s IH]; simpl; [done|].
  intros [Hc Hs]%andb_true_iff.
  apply negb_true_iff in Hc. rewrite Hc, (IH Hs). done.
Qed.

Lemma str_join_cons (x y : string) (l : list string) :
  str_join sep (x :: y :: l) = x +:+ String sep (str_join sep (y :: l)).
Proof. done. Qed.

Lemma str_join_split (s : string) : str_join sep (str_split sep s) = s.
Proof.
  induction s as [|c s IH]; [done|].
  cbn [str_split]. destruct (Ascii.eqb c sep) eqn:Hc.
  - apply Ascii.eqb_eq in Hc as ->.
    pose proof (str_split_nonempty s) as Hne.
    destruct (str_split sep s) as [|w ws]; [done|].
    rewrite str_join_cons, IH. done.
  - pose proof (str_split_nonempty s) as Hne.
    destruct (str_split sep s) as [|w ws]; [done|].
    destruct ws as [|w' ws].
    + simpl in *. by rewrite IH.
    + rewrite str_join_cons. rewrite str_join_cons in IH.
      by rewrite <- IH.
Qed.

Lemma str_split_app_sep (x t : string) :
  no_char sep x = true →
  str_split sep (x +:+ String sep t) = x :: str_split sep t.
Proof.
  induction x as [|c x IH]; cbn [no_char].
  - intros _. change ("" +:+ String sep t) with (String sep t).
    cbn [str_split]. by rewrite Ascii.eqb_refl.
  - intros [Hc Hx]%andb_true_iff. apply negb_true_iff in Hc.
    change (String c x +:+ String sep t) with (String c (x +:+ String sep t)).
    cbn [str_split]. rewrite Hc, (IH Hx). done.
Qed.

Lemma str_split_join (l : list string) :
  l ≠ [] → Forall (λ x, no_char sep x = true) l →
  str_split sep (str_join sep l) = l.
Proof.
  induction l as [|x l IH]; [done|].
  intros _ Hall. apply Forall_cons in Hall as [Hx Hl].
  destruct l as [|y l].
  - simpl. by apply str_split_no_char.
  - rewrite str_join_cons, str_split_app_sep by done.
    f_equal. by apply IH.
Qed.
End strings.

(** ** Frames and the merge *)

Section frames.
Context {R : Type}.
Implicit Types rows : list R.

Lemma range_index_rows rows : (range_index rows).*2 = rows.
Proof. apply snd_zip. by rewrite length_seq. Qed.

Lemma range_index_labels rows : (range_index rows).*1 = seq 0 (length rows).
Proof. apply fst_zip. by rewrite length_seq. Qed.

Lemma range_index_length rows : length (range_index rows) = length rows.
Proof. by rewrite <- (length_fmap snd), range_index_rows. Qed.

End frames.

Lemma elem_of_groupby_join (df : DataFrame Principals.row) (a : Actors.row) :
  a ∈ (groupby_join df).*2 ↔
    (∃ p, p ∈ df.*2 ∧ Principals.tconst p = Actors.tconst a) ∧
    Actors.nconst a =
      str_join comma
        (Principals.nconst <$> filter (λ r, Principals.tconst r = Actors.tconst a) df.*2).
Proof.
  unfold groupby_join. rewrite range_index_rows, list_elem_of_fmap.
  setoid_rewrite merge_sort_Permutation.
  setoid_rewrite elem_of_remove_dups.
  split.
  - intros (k & -> & (p & -> & Hp)%list_elem_of_fmap). simpl.
    split; [by exists p | done].
  - intros [(p & Hp & Hk) Hn]. exists (Actors.tconst a). split.
    + destruct a as [k n]. simpl in *. by rewrite Hn.
    + apply list_elem_of_fmap. by exists p.
Qed.

Lemma elem_of_loc_actor (ps : DataFrame Principals.row) (p : Principals.row) :
  p ∈ (loc_actor ps).*2 ↔ p ∈ ps.*2 ∧ Principals.category p = "actor".
Proof.
  unfold loc_actor. rewrite !list_elem_of_fmap. split.
  - intros ([i q] & -> & [Hc Hin]%list_elem_of_filter). simpl in *.
    split; [by exists (i, q) | done].
  - intros [([i q] & -> & Hin) Hc]. exists (i, q). split; [done|].
    by apply list_elem_of_filter.
Qed.

Lemma elem_of_pd_merge (left : DataFrame Crew.row) (right : DataFrame Actors.row)
    (j : Joined.row) :
  j ∈ (pd_merge left right).*2 ↔
    ∃ c a, c ∈ left.*2 ∧ a ∈ right.*2 ∧ Actors.tconst a = Crew.tconst c ∧
           j = {| Joined.tconst := Crew.tconst c;
                  Joined.directors := Crew.directors c;
                  Joined.writers := Crew.writers c;
                  Joined.nconst := Actors.nconst a |}.
Proof.
  unfold pd_merge. rewrite range_index_rows, list_elem_of_bind.
  setoid_rewrite list_elem_of_bind.
  setoid_rewrite list_elem_of_filter.
  setoid_rewrite list_elem_of_singleton.
  split.
  - intros (c & (a & -> & Hk & Ha) & Hc). by exists c, a.
  - intros (c & a & Hc & Ha & Hk & ->). exists c. split; [|done]. by exists a.
Qed.

Lemma split_columns_rows (df : DataFrame Joined.row) :
  (split_columns df).*2 = split_row <$> df.*2.
Proof. unfold split_columns. by rewrite <- !list_fmap_compose. Qed.

Lemma split_columns_labels (df : DataFrame Joined.row) :
  (split_columns df).*1 = df.*1.
Proof. unfold split_columns. by rewrite <- !list_fmap_compose. Qed.

Lemma elem_of_merged_of (rd : CrewReader) (r : Merged.row) :
  r ∈ (merged_of rd).*2 ↔
    ∃ c, c ∈ (crew rd).*2 ∧ has_actor (principals rd) (Crew.tconst c) ∧
         r = merged_row rd c.
Proof.
  unfold merged_of. rewrite split_columns_rows, list_elem_of_fmap.
  setoid_rewrite elem_of_pd_merge.
  setoid_rewrite elem_of_groupby_join.
  unfold has_actor, merged_row, actors_of.
  split.
  - intros (j & -> & c & a & Hc & [(p & Hp & Hk) Hn] & Hac & ->).
    exists c. split; [done|]. split.
    + apply elem_of_loc_actor in Hp as [Hp Hcat].
      exists p. split; [done|]. split; [congruence | done].
    + simpl. rewrite Hn, Hac. done.
  - intros (c & Hc & (p & Hp & Hk & Hcat) & ->).
    set (a := {| Actors.tconst := Crew.tconst c;
                 Actors.nconst := str_join comma
                   (Principals.nconst <$>
                    filter (λ r, Principals.tconst r = Crew.tconst c)
                      (loc_actor (principals rd)).*2) |}).
    eexists. split; [|exists c, a; split; [done|]; split; [|done]].
    + done.
    + split; [|done]. exists p. split; [|done]. by apply elem_of_loc_actor.
Qed.

(** ** Reasoning about computations *)

Lemma outcome_bind {A B : Type} (c : M A) (f : A → M B) (m : Machine)
    (Q' : A → Machine → Prop) (Q : B → Machine → Prop) (E : exn → Machine → Prop) :
  outcome (c m) Q' E →
  (∀ a m', Q' a m' → outcome (f a m') Q E) →
  outcome ((c ≫= f) m) Q E.
Proof.
  unfold mbind, M_bind. destruct (c m) as [[e|a] m']; simpl; auto.
Qed.

Lemma outcome_weaken {A : Type} (x : (exn + A) * Machine)
    (Q Q' : A → Machine → Prop) (E E' : exn → Machine → Prop) :
  outcome x Q E →
  (∀ a m', Q a m' → Q' a m') → (∀ e m', E e m' → E' e m') →
  outcome x Q' E'.
Proof. destruct x as [[e|a] m']; simpl; auto. Qed.

Lemma preserved_refl m : preserved m m.
Proof. by split. Qed.

Lemma preserved_trans m1 m2 m3 : preserved m1 m2 → preserved m2 m3 → preserved m1 m3.
Proof. intros [] []. split; congruence. Qed.

(** ** The resolution pass *)

Lemma inv_queried base m : inv base m → ∃ qs, queried base m qs.
Proof. intros (_ & qs & Hq & _). by exists qs. Qed.

Lemma resolve_spec (base : list string) (nconst : string) (m : Machine) :
  inv base m →
  outcome (resolve nconst m)
    (λ name m', preserved m m' ∧ merged_crew (self m') = merged_crew (self m) ∧
                inv base m' ∧ first_name (names (self m)) nconst = Some name)
    (λ e m', preserved m m' ∧ merged_crew (self m') = merged_crew (self m) ∧
             (∃ qs, queried base m' qs) ∧
             e = IndexError ∧ first_name (names (self m)) nconst = None).
Proof.
  intros (Hc & qs & [Hq Hnd] & Hin).
  unfold resolve, mbind, M_bind, get, modify, mret, M_ret, raise, first_name in *.
  simpl. destruct (mappings m !! nconst) as [v|] eqn:Hv; simpl.
  { split; [apply preserved_refl|]. split; [done|]. split; [|by apply Hc].
    split; [done|]. by exists qs. }
  assert (Hfresh : nconst ∉ qs).
  { intros [v Hv']%Hin. congruence. }
  assert (Hnd' : NoDup (qs ++ [nconst])).
  { apply NoDup_app. split; [done|]. split; [|apply NoDup_singleton].
    intros x Hx ->%list_elem_of_singleton. done. }
  destruct (names_loc (names (self m)) nconst !! 0) as [name|] eqn:Hn; simpl.
  - split; [by split|]. split; [done|]. split; [|done]. split.
    + intros id v. unfold cache_ok, first_name. simpl.
      destruct (decide (nconst = id)) as [->|Hne].
      * rewrite lookup_insert_eq. congruence.
      * rewrite lookup_insert_ne by done. apply Hc.
    + exists (qs ++ [nconst]). split.
      * split; [|done]. simpl. by rewrite Hq, <- app_assoc.
      * intros id [Hid| ->%list_elem_of_singleton]%elem_of_app; simpl.
        -- destruct (decide (nconst = id)) as [->|Hne].
           ++ rewrite lookup_insert_eq. by eexists.
           ++ rewrite lookup_insert_ne by done. by apply Hin.
        -- rewrite lookup_insert_eq. by eexists.
  - split; [by split|]. split; [done|]. split; [|done].
    exists (qs ++ [nconst]). split; [|done]. simpl. by rewrite Hq, <- app_assoc.
Qed.

Lemma print_spec (p : Printed) (base : list string) (m : Machine) :
  inv base m →
  outcome (print p m)
    (λ _ m', preserved m m' ∧ merged_crew (self m') = merged_crew (self m) ∧ inv base m')
    (λ _ _, False).
Proof. intros Hinv. simpl. split; [by split|]. done. Qed.

Lemma for_nconst_spec (base : list string) (field acc : list string) (m : Machine) :
  inv base m →
  outcome (for_nconst field acc m)
    (λ ns m', preserved m m' ∧ merged_crew (self m') = merged_crew (self m) ∧
              inv base m' ∧
              ∃ ns', ns = acc ++ ns' ∧ all_names (names (self m)) field ns')
    (λ e m', preserved m m' ∧ merged_crew (self m') = merged_crew (self m) ∧
             (∃ qs, queried base m' qs) ∧
             e = IndexError ∧ some_missing (names (self m)) field).
Proof.
  revert acc m. induction field as [|id field IH]; intros acc m Hinv.
  - simpl. split; [apply preserved_refl|]. split; [done|]. split; [done|].
    exists []. by rewrite app_nil_r.
  - cbn [for_nconst].
    eapply outcome_bind; [eapply outcome_weaken; [by apply (resolve_spec base)| |]|].
    { intros name m1 H. exact H. }
    { intros e m1 (Hp & Hm & Hq & -> & Hnone). do 3 (split; [done|]). split; [done|].
      exists id. split; [left|done]. }
    intros name m1 (Hp1 & Hm1 & Hinv1 & Hname).
    eapply outcome_bind; [eapply outcome_weaken; [by apply (print_spec _ base)| |]|].
    { intros u m2 H. exact H. }
    { intros _ _ []. }
    intros _ m2 (Hp2 & Hm2 & Hinv2). cbv beta.
    eapply outcome_weaken; [by apply IH| |].
    + intros ns m3 (Hp3 & Hm3 & Hinv3 & ns' & -> & Hall).
      split; [eauto using preserved_trans|]. split; [congruence|]. split; [done|].
      exists (name :: ns'). split; [by rewrite <- app_assoc|].
      unfold all_names in *. rewrite !fmap_cons, Hname. f_equal.
      rewrite Hall. by rewrite (pres_names _ _ Hp2), (pres_names _ _ Hp1).
    + intros e m3 (Hp3 & Hm3 & Hq & -> & id' & Hid' & Hnone).
      split; [eauto using preserved_trans|]. split; [congruence|]. do 2 (split; [done|]).
      exists id'. split; [by right|].
      by rewrite <- (pres_names _ _ Hp1), <- (pres_names _ _ Hp2).
Qed.

Lemma all_names_length nm ids ns : all_names nm ids ns → length ns = length ids.
Proof.
  unfold all_names. intros H.
  by rewrite <- (length_fmap Some ns), H, length_fmap.
Qed.

Lemma all_names_lookup nm ids ns k id :
  all_names nm ids ns → ids !! k = Some id →
  ∃ name, ns !! k = Some name ∧ first_name nm id = Some name.
Proof.
  unfold all_names. intros H Hk.
  assert (Hl : (Some <$> ns) !! k = Some (first_name nm id)).
  { by rewrite H, list_lookup_fmap, Hk. }
  rewrite list_lookup_fmap in Hl.
  destruct (ns !! k) as [name|]; simplify_eq/=. by exists name.
Qed.

Lemma all_names_not_missing nm ids ns :
  all_names nm ids ns → ¬ some_missing nm ids.
Proof.
  intros H (id & [k Hk]%list_elem_of_lookup & Hnone).
  destruct (all_names_lookup _ _ _ _ _ H Hk) as (name & _ & Hname). congruence.
Qed.

Lemma resolved_not_missing nm row row' : resolved nm row row' → ¬ row_missing nm row.
Proof.
  intros (_ & H1 & H2 & H3) [[] Hj]; simpl in Hj.
  - by apply (all_names_not_missing _ _ _ H1).
  - by apply (all_names_not_missing _ _ _ H2).
  - by apply (all_names_not_missing _ _ _ H3).
Qed.

Lemma map_cell_spec (base : list string) (i : nat) (j : ListCol) (m : Machine)
    (df : DataFrame Merged.row) (l : nat) (row : Merged.row) :
  inv base m → merged_crew (self m) = Some df → df !! i = Some (l, row) →
  outcome (map_cell i j m)
    (λ _ m', preserved m m' ∧ inv base m' ∧
             ∃ ns, all_names (names (self m)) (col_get j row) ns ∧
                   merged_crew (self m') = Some (<[i := (l, col_set j ns row)]> df))
    (λ e m', preserved m m' ∧ (∃ qs, queried base m' qs) ∧
             merged_crew (self m') = Some df ∧
             e = IndexError ∧ some_missing (names (self m)) (col_get j row)).
Proof.
  intros Hinv Hdf Hi. unfold map_cell.
  apply outcome_bind with
    (Q' := λ field m', m' = m ∧ field = col_get j row).
  { unfold iloc_get, get_merged_crew, mbind, M_bind, get, mret, M_ret. simpl.
    rewrite Hdf. simpl. rewrite Hi. done. }
  intros field m' [-> ->].
  eapply outcome_bind; [eapply outcome_weaken; [by apply (for_nconst_spec base)| |]|].
  { intros ns m1 H. exact H. }
  { intros e m1 (Hp & Hm & Hq & -> & Hmiss). split; [done|]. split; [done|].
    split; [congruence|]. done. }
  intros ns m1 (Hp1 & Hm1 & Hinv1 & ns' & -> & Hall). rewrite app_nil_l.
  unfold iloc_set, get_merged_crew, mbind, M_bind, get, mret, M_ret, modify. simpl.
  rewrite Hm1, Hdf. simpl. rewrite Hi. simpl.
  destruct Hp1. split; [by split|]. split; [|by exists ns'].
  destruct Hinv1 as [Hc Hq]. split; [|done].
  intros id v. apply Hc.
Qed.

(** The loop [for j in [1,2,3]] on row [i]. *)
Lemma for_columns_spec (base : list string) (i : nat) (m : Machine)
    (df : DataFrame Merged.row) (l : nat) (row : Merged.row) :
  inv base m → merged_crew (self m) = Some df → df !! i = Some (l, row) →
  outcome (for_each [Col1; Col2; Col3] (λ j, map_cell i j) m)
    (λ _ m', preserved m m' ∧ inv base m' ∧
             ∃ row', resolved (names (self m)) row row' ∧
                     merged_crew (self m') = Some (<[i := (l, row')]> df))
    (λ e m', preserved m m' ∧ (∃ qs, queried base m' qs) ∧
             (∃ row', Merged.tconst row' = Merged.tconst row ∧
                      merged_crew (self m') = Some (<[i := (l, row')]> df)) ∧
             e = IndexError ∧ row_missing (names (self m)) row).
Proof.
  intros Hinv Hdf Hi. cbn [for_each].
  assert (Hlt : i < length df) by (by eapply lookup_lt_Some).
  eapply outcome_bind;
    [eapply outcome_weaken; [by apply (map_cell_spec base i Col1 m df l row)| |]|].
  { intros u m1 H. exact H. }
  { intros e m1 (Hp & Hq & Hm & -> & Hmiss). do 2 (split; [done|]). split.
    - exists row. split; [done|]. by rewrite list_insert_id.
    - split; [done|]. by exists Col1. }
  intros _ m1 (Hp1 & Hinv1 & ns1 & Hall1 & Hm1).
  set (row1 := col_set Col1 ns1 row) in *.
  assert (Hi1 : <[i:=(l, row1)]> df !! i = Some (l, row1))
    by (by apply list_lookup_insert_eq).
  eapply outcome_bind;
    [eapply outcome_weaken; [exact (map_cell_spec base i Col2 m1 _ l row1 Hinv1 Hm1 Hi1)| |]|].
  { intros u m2 H. exact H. }
  { intros e m2 (Hp & Hq & Hm & -> & Hmiss).
    split; [eauto using preserved_trans|]. split; [done|]. split.
    - exists row1. done.
    - split; [done|]. exists Col2. by rewrite <- (pres_names _ _ Hp1). }
  intros _ m2 (Hp2 & Hinv2 & ns2 & Hall2 & Hm2).
  rewrite list_insert_insert_eq in Hm2.
  set (row2 := col_set Col2 ns2 row1) in *.
  assert (Hi2 : <[i:=(l, row2)]> df !! i = Some (l, row2))
    by (by apply list_lookup_insert_eq).
  eapply outcome_bind;
    [eapply outcome_weaken; [exact (map_cell_spec base i Col3 m2 _ l row2 Hinv2 Hm2 Hi2)| |]|].
  { intros u m3 H. exact H. }
  { intros e m3 (Hp & Hq & Hm & -> & Hmiss).
    split; [eauto using preserved_trans|]. split; [done|]. split.
    - exists row2. done.
    - split; [done|]. exists Col3.
      by rewrite <- (pres_names _ _ Hp1), <- (pres_names _ _ Hp2). }
  intros _ m3 (Hp3 & Hinv3 & ns3 & Hall3 & Hm3).
  rewrite list_insert_insert_eq in Hm3.
  simpl. split; [eauto using preserved_trans|]. split; [done|].
  eexists. split; [|exact Hm3].
  rewrite (pres_names _ _ Hp2), (pres_names _ _ Hp1) in Hall3.
  rewrite (pres_names _ _ Hp1) in Hall2.
  by repeat split.
Qed.

Lemma same_shape_refl df : same_shape df df.
Proof. by split. Qed.

Lemma same_shape_trans df1 df2 df3 :
  same_shape df1 df2 → same_shape df2 df3 → same_shape df1 df3.
Proof. intros [] []. split; congruence. Qed.

Lemma same_shape_length df df' : same_shape df df' → length df' = length df.
Proof. intros [H _]. by rewrite <- (length_fmap fst df'), H, length_fmap. Qed.

Lemma same_shape_insert df i l row row' :
  df !! i = Some (l, row) → Merged.tconst row' = Merged.tconst row →
  same_shape df (<[i := (l, row')]> df).
Proof.
  intros Hi Ht. split.
  - rewrite list_fmap_insert. apply list_insert_id.
    by rewrite list_lookup_fmap, Hi.
  - rewrite !list_fmap_insert. apply list_insert_id.
    rewrite !list_lookup_fmap, Hi. simpl. by rewrite Ht.
Qed.

(** The loop [for i in range(...)] from row [k] on. *)
Lemma for_rows_spec (base : list string) (n : nat) :
  ∀ (k : nat) (m : Machine) (df : DataFrame Merged.row),
  inv base m → merged_crew (self m) = Some df → k + n = length df →
  outcome
    (for_each (seq k n) (λ i, for_each [Col1; Col2; Col3] (λ j, map_cell i j)) m)
    (λ _ m', preserved m m' ∧ inv base m' ∧
             ∃ df', merged_crew (self m') = Some df' ∧ same_shape df df' ∧
                    (∀ i : nat, (i < k)%nat → df' !! i = df !! i) ∧
                    ∀ (i l : nat) row, (k ≤ i)%nat → df !! i = Some (l, row) →
                      ∃ row', df' !! i = Some (l, row') ∧
                              resolved (names (self m)) row row')
    (λ e m', preserved m m' ∧ (∃ qs, queried base m' qs) ∧
             (∃ df', merged_crew (self m') = Some df' ∧ same_shape df df') ∧
             e = IndexError ∧
             ∃ (i l : nat) row, (k ≤ i)%nat ∧ df !! i = Some (l, row) ∧
                        row_missing (names (self m)) row).
Proof.
  induction n as [|n IH]; intros k m df Hinv Hdf Hlen.
  - simpl. split; [apply preserved_refl|]. split; [done|].
    exists df. split; [done|]. split; [apply same_shape_refl|]. split; [done|].
    intros i l row Hk Hi. apply lookup_lt_Some in Hi. lia.
  - cbn [seq for_each].
    destruct (lookup_lt_is_Some_2 df k) as [[l row] Hk]; [lia|].
    eapply outcome_bind;
      [eapply outcome_weaken; [exact (for_columns_spec base k m df l row Hinv Hdf Hk)| |]|].
    { intros u m1 H. exact H. }
    { intros e m1 (Hp & Hq & (row' & Ht & Hm) & -> & Hmiss).
      do 2 (split; [done|]). split.
      - eexists. split; [exact Hm|]. by apply (same_shape_insert df k l row row').
      - split; [done|]. by exists k, l, row. }
    intros _ m1 (Hp1 & Hinv1 & row' & Hres & Hm1).
    assert (Hsh1 : same_shape df (<[k:=(l, row')]> df)).
    { apply (same_shape_insert df k l row row'); [done|]. by destruct Hres. }
    eapply outcome_weaken;
      [apply (IH (S k) m1 (<[k:=(l, row')]> df) Hinv1 Hm1);
       rewrite length_insert; lia| |].
    + intros _ m2 (Hp2 & Hinv2 & df' & Hm2 & Hsh2 & Hlow & Hhigh).
      split; [eauto using preserved_trans|]. split; [done|].
      exists df'. split; [done|]. split; [eauto using same_shape_trans|]. split.
      * intros i Hi. rewrite Hlow by lia. apply list_lookup_insert_ne. lia.
      * intros i l0 row0 Hi Hrow0. destruct (decide (i = k)) as [->|Hne].
        -- assert (l0 = l ∧ row0 = row) as [-> ->] by (split; congruence).
           exists row'. split; [|done].
           rewrite Hlow by lia. apply list_lookup_insert_eq.
           by eapply lookup_lt_Some.
        -- destruct (Hhigh i l0 row0) as (row2 & Hrow2 & Hres2); [lia| |].
           { rewrite list_lookup_insert_ne by done. done. }
           exists row2. split; [done|]. by rewrite <- (pres_names _ _ Hp1).
    + intros e m2 (Hp2 & Hq & (df' & Hm2 & Hsh2) & -> & i & l0 & row0 & Hi & Hrow0 & Hmiss).
      split; [eauto using preserved_trans|]. split; [done|]. split.
      * exists df'. split; [done|]. eauto using same_shape_trans.
      * split; [done|]. exists i, l0, row0. split; [lia|]. split.
        -- rewrite list_lookup_insert_ne in Hrow0 by lia. done.
        -- by rewrite <- (pres_names _ _ Hp1).
Qed.

Lemma resolved_frame_not_missing nm df df' :
  resolved_frame nm df df' → ¬ frame_missing nm df.
Proof.
  intros HF (i & l & row & Hi & Hmiss).
  destruct (Forall2_lookup_l _ _ _ _ _ HF Hi) as ([l' row'] & _ & _ & Hres).
  by apply (resolved_not_missing _ _ _ Hres).
Qed.

(** [map_crew] on a reader whose merged table is [df]. *)
Lemma map_crew_spec (m : Machine) (df : DataFrame Merged.row) :
  merged_crew (self m) = Some df →
  outcome (map_crew m)
    (λ _ m', preserved m m' ∧ (∃ qs, queried (names_queries m) m' qs) ∧
             ∃ df', merged_crew (self m') = Some df' ∧ same_shape df df' ∧
                    resolved_frame (names (self m)) df df')
    (λ e m', preserved m m' ∧ (∃ qs, queried (names_queries m) m' qs) ∧
             (∃ df', merged_crew (self m') = Some df' ∧ same_shape df df') ∧
             e = IndexError ∧ frame_missing (names (self m)) df).
Proof.
  intros Hdf. unfold map_crew.
  set (m0 := set_mappings ∅ m).
  assert (Hinv0 : inv (names_queries m) m0).
  { split; [intros id v; unfold m0; simpl; by rewrite lookup_empty|].
    exists []. split; [|by intros id ?%elem_of_nil].
    split; [by rewrite app_nil_r | constructor]. }
  apply outcome_bind with (Q' := λ _ m', m' = m0); [done|].
  intros _ _ ->.
  apply outcome_bind with (Q' := λ d m', m' = m0 ∧ d = df).
  { unfold get_merged_crew, mbind, M_bind, get, mret, M_ret. simpl.
    rewrite Hdf. done. }
  intros _ _ [-> ->].
  assert (Hp0 : preserved m m0) by (by split).
  eapply outcome_weaken;
    [apply (for_rows_spec (names_queries m) (length df) 0 m0 df Hinv0); done| |].
  - intros _ m' (Hp & Hinv & df' & Hm & Hsh & _ & Hhigh).
    split; [eauto using preserved_trans|]. split; [by apply inv_queried|].
    exists df'. split; [done|]. split; [done|].
    apply Forall2_same_length_lookup. split; [by rewrite (same_shape_length _ _ Hsh)|].
    intros i [l row] [l' row'] Hi Hi'.
    destruct (Hhigh i l row) as (row2 & Hrow2 & Hres); [lia|done|].
    simplify_eq. done.
  - intros e m' (Hp & Hq & Hdf' & -> & i & l & row & _ & Hi & Hmiss).
    split; [eauto using preserved_trans|]. do 3 (split; [done|]).
    by exists i, l, row.
Qed.

(** Before [merge_crew] there is no [merged_crew] to iterate on. *)
Lemma map_crew_unmerged (m : Machine) :
  merged_crew (self m) = None →
  map_crew m = (inl AttributeError, set_mappings ∅ m).
Proof.
  intros H. unfold map_crew, get_merged_crew, mbind, M_bind, get, modify, raise.
  simpl. by rewrite H.
Qed.

(** ** The three methods in sequence *)

Lemma merge_crew_spec (m : Machine) :
  ∃ m', merge_crew m = (inr (), m') ∧ preserved m m' ∧
        merged_crew (self m') = Some (merged_of (self m)) ∧
        names_queries m' = names_queries m.
Proof.
  unfold merge_crew, mbind, M_bind, get, print, modify. simpl.
  eexists. split; [reflexivity|]. by repeat split.
Qed.

Lemma write_to_csv_spec (path : string) (m : Machine) (df : DataFrame Merged.row) :
  merged_crew (self m) = Some df →
  write_to_csv path m = (inr (), set_file path (to_csv df) m).
Proof.
  intros H. unfold write_to_csv, get_merged_crew, mbind, M_bind, get, modify.
  simpl. by rewrite H.
Qed.

(** The whole run: either every identifier has a name, the merged table
    is resolved and written, or one has none, the run stops with an
    [IndexError] and no file is touched. *)
Lemma pipeline_spec (ids : list string) (crew_tsv : DataFrame Crew.row)
    (principals_tsv : DataFrame Principals.row) (names_tsv : DataFrame Names.row)
    (fs : gmap string CsvFile) :
  let df := merged_of (init ids crew_tsv principals_tsv names_tsv) in
  outcome (pipeline ids crew_tsv principals_tsv names_tsv fs)
    (λ _ m', ∃ df', merged_crew (self m') = Some df' ∧ same_shape df df' ∧
                    resolved_frame names_tsv df df' ∧
                    files m' = <["crew_info.csv" := to_csv df']> fs)
    (λ e m', e = IndexError ∧ frame_missing names_tsv df ∧ files m' = fs).
Proof.
  intros df. unfold pipeline, run_methods.
  set (m0 := boot _ fs).
  destruct (merge_crew_spec m0) as (m1 & Hrun1 & Hp1 & Hm1 & _).
  apply outcome_bind with (Q' := λ _ m', m' = m1); [by rewrite Hrun1|].
  intros _ _ ->.
  eapply outcome_bind; [eapply outcome_weaken; [exact (map_crew_spec m1 _ Hm1)| |]|].
  { intros u m2 H. exact H. }
  { intros e m2 (Hp2 & _ & _ & -> & Hmiss). split; [done|].
    rewrite (pres_names _ _ Hp1) in Hmiss. split; [done|].
    by rewrite (pres_files _ _ Hp2), (pres_files _ _ Hp1). }
  intros _ m2 (Hp2 & _ & df' & Hm2 & Hsh & Hres). cbv beta.
  rewrite (write_to_csv_spec _ _ _ Hm2). simpl.
  exists df'. split; [done|]. split; [done|].
  rewrite (pres_names _ _ Hp1) in Hres. split; [done|].
  by rewrite (pres_files _ _ Hp2), (pres_files _ _ Hp1).
Qed.

(** Where the films of the merged table come from. *)
Lemma merged_of_init_films (ids : list string) (crew_tsv : DataFrame Crew.row)
    (principals_tsv : DataFrame Principals.row) (names_tsv : DataFrame Names.row)
    (row : Merged.row) :
  row ∈ (merged_of (init ids crew_tsv principals_tsv names_tsv)).*2 →
  Merged.tconst row ∈ ids ∧
  (∃ c, c ∈ crew_tsv.*2 ∧ Crew.tconst c = Merged.tconst row) ∧
  has_actor principals_tsv (Merged.tconst row).
Proof.
  intros (c & Hc & (p & Hp & Hk & Hcat) & ->)%elem_of_merged_of. simpl in *.
  unfold crew_isin in Hc. unfold principals_isin in Hp.
  apply list_elem_of_fmap in Hc as ([i c'] & -> & [Hin Hc]%list_elem_of_filter).
  apply list_elem_of_fmap in Hp as ([i' p'] & -> & [Hin' Hp]%list_elem_of_filter).
  simpl in *. split; [done|]. split.
  - exists c'. split; [|done]. apply list_elem_of_fmap. by exists (i, c').
  - exists p'. split; [|done]. apply list_elem_of_fmap. by exists (i', p').
Qed.

Lemma same_shape_tconst df df' (l : nat) (row' : Merged.row) :
  same_shape df df' → (l, row') ∈ df' →
  ∃ row, row ∈ df.*2 ∧ Merged.tconst row = Merged.tconst row'.
Proof.
  intros [_ Ht] Hin.
  assert (H : Merged.tconst row' ∈ Merged.tconst <$> df'.*2).
  { apply list_elem_of_fmap. exists row'. split; [done|].
    apply list_elem_of_fmap. by exists (l, row'). }
  rewrite Ht in H. apply list_elem_of_fmap in H as (row & Heq & Hrow).
  by exists row.
Qed.

(** ** The properties of the specification *)

(** C1. After a complete run, every row of the final table (the one
    written to crew_info.csv) has a film identifier that is in
    [MOVIE_IDS], is the identifier of a row of the crew source and is the
    identifier of a row of the principals source whose category is
    "actor". *)
Theorem C1_output_films (crew_tsv : DataFrame Crew.row)
    (principals_tsv : DataFrame Principals.row) (names_tsv : DataFrame Names.row)
    (fs : gmap string CsvFile) (m : Machine) :
  main crew_tsv principals_tsv names_tsv fs = (inr (), m) →
  ∃ df, merged_crew (self m) = Some df ∧
        files m !! "crew_info.csv" = Some (to_csv df) ∧
        ∀ (l : nat) (row : Merged.row), (l, row) ∈ df →
          Merged.tconst row ∈ MOVIE_IDS ∧
          (∃ c, c ∈ crew_tsv.*2 ∧ Crew.tconst c = Merged.tconst row) ∧
          (∃ p, p ∈ principals_tsv.*2 ∧
                Principals.tconst p = Merged.tconst row ∧
                Principals.category p = "actor").
Proof.
  intros Hrun.
  pose proof (pipeline_spec MOVIE_IDS crew_tsv principals_tsv names_tsv fs) as H.
  fold main in H. rewrite Hrun in H. simpl in H.
  destruct H as (df' & Hm & Hsh & _ & Hfiles).
  exists df'. split; [done|]. split; [by rewrite Hfiles, lookup_insert_eq|].
  intros l row' Hin.
  destruct (same_shape_tconst _ _ _ _ Hsh Hin) as (row & Hrow & <-).
  by apply (merged_of_init_films _ _ _ names_tsv).
Qed.

Lemma C1_output_films_witness :
  (main run_crew run_principals run_names ∅).1 = inr () ∧
  ∃ df, merged_crew (self (main run_crew run_principals run_names ∅).2) = Some df ∧
        files (main run_crew run_principals run_names ∅).2 !! "crew_info.csv"
          = Some (to_csv df) ∧
        ∀ (l : nat) (row : Merged.row), (l, row) ∈ df →
          Merged.tconst row ∈ MOVIE_IDS ∧
          (∃ c, c ∈ run_crew.*2 ∧ Crew.tconst c = Merged.tconst row) ∧
          (∃ p, p ∈ run_principals.*2 ∧
                Principals.tconst p = Merged.tconst row ∧
                Principals.category p = "actor").
Proof.
  split; [vm_compute; reflexivity|].
  apply (C1_output_films run_crew run_principals run_names ∅).
  vm_compute. reflexivity.
Defined.

Lemma init_scenario (ids : list string) :
  "tt0001" ∈ ids →
  init ids ex_crew ex_principals ex_names = init ["tt0001"] ex_crew ex_principals ex_names.
Proof.
  intros Hin. unfold init, crew_isin, principals_isin, ex_crew, ex_principals.
  rewrite !filter_cons, !filter_nil. simpl.
  destruct (decide ("tt0001" ∈ ids)); [|done].
  destruct (decide ("tt0001" ∈ ["tt0001"])) as [|Hn]; [done|].
  exfalso. apply Hn. left.
Qed.

(** C2. With tt0001 among the movies of interest, on the crew row
    (tt0001, "nm1,nm2", "nm3"), the principals nm4 and nm5 (actor) and nm6
    (director) and the names nm1..nm5 = A..E, merging gives the single row
    (tt0001, [nm1,nm2], [nm3], [nm4,nm5]) and resolving it gives
    (tt0001, [A,B], [C], [D,E]), which the run writes; nm6 is in no list. *)
Theorem C2_scenario (ids : list string) (fs : gmap string CsvFile) :
  "tt0001" ∈ ids →
  merged_of (init ids ex_crew ex_principals ex_names) = [(0, ex_row_ids)] ∧
  ∃ m, (merge_crew;; map_crew) (boot (init ids ex_crew ex_principals ex_names) fs)
         = (inr (), m) ∧
       merged_crew (self m) = Some [(0, ex_row)] ∧
       pipeline ids ex_crew ex_principals ex_names fs
         = (inr (), set_file "crew_info.csv" (to_csv [(0, ex_row)]) m).
Proof.
  intros Hin. unfold pipeline, run_methods. rewrite (init_scenario ids Hin).
  split; [vm_compute; reflexivity|].
  eexists. split; [vm_compute; reflexivity|].
  split; [reflexivity|].
  vm_compute. reflexivity.
Qed.

Lemma C2_scenario_witness :
  "tt0001" ∈ ["tt0001"] ∧
  merged_of (init ["tt0001"] ex_crew ex_principals ex_names) = [(0, ex_row_ids)] ∧
  ∃ m, (merge_crew;; map_crew) (boot (init ["tt0001"] ex_crew ex_principals ex_names) ∅)
         = (inr (), m) ∧
       merged_crew (self m) = Some [(0, ex_row)] ∧
       pipeline ["tt0001"] ex_crew ex_principals ex_names ∅
         = (inr (), set_file "crew_info.csv" (to_csv [(0, ex_row)]) m).
Proof.
  assert (H : "tt0001" ∈ ["tt0001"]) by (left).
  split; [exact H|]. exact (C2_scenario ["tt0001"] ∅ H).
Defined.

(** C3. When every identifier of the merged table has a row in the names
    table, [map_crew] returns; and whenever it returns, each of the three
    list cells of each row has as many names as it had identifiers, the
    k-th name being the first name of the k-th identifier. *)
Theorem C3_names_follow_identifiers (m : Machine) (df : DataFrame Merged.row) :
  merged_crew (self m) = Some df →
  (¬ frame_missing (names (self m)) df → ∃ m', map_crew m = (inr (), m')) ∧
  ∀ m', map_crew m = (inr (), m') →
    ∃ df', merged_crew (self m') = Some df' ∧ length df' = length df ∧
      ∀ (i l : nat) (row : Merged.row), df !! i = Some (l, row) →
        ∃ row', df' !! i = Some (l, row') ∧
          ∀ j : ListCol,
            length (col_get j row') = length (col_get j row) ∧
            ∀ (k : nat) (id : string), col_get j row !! k = Some id →
              ∃ name, col_get j row' !! k = Some name ∧
                      first_name (names (self m)) id = Some name.
Proof.
  intros Hdf. pose proof (map_crew_spec m df Hdf) as H. split.
  - intros Hnm. destruct (map_crew m) as [[e|[]] m']; simpl in H.
    + by destruct H as (_ & _ & _ & _ & ?).
    + by exists m'.
  - intros m' Hrun. rewrite Hrun in H. simpl in H.
    destruct H as (_ & _ & df' & Hm' & Hsh & Hres).
    exists df'. split; [done|]. split; [by apply same_shape_length|].
    intros i l row Hi.
    destruct (Forall2_lookup_l _ _ _ _ _ Hres Hi) as ([l' row'] & Hi' & Hl & Hrow).
    simpl in Hl, Hrow. subst l'. exists row'. split; [done|].
    destruct Hrow as (_ & H1 & H2 & H3).
    intros j. assert (Hj : all_names (names (self m)) (col_get j row) (col_get j row'))
      by (by destruct j).
    split; [by eapply all_names_length|].
    intros k id Hk. by eapply all_names_lookup.
Qed.

Lemma C3_names_follow_identifiers_witness :
  merged_crew (self (run_merged run_names))
    = Some (merged_of (init MOVIE_IDS run_crew run_principals run_names)) ∧
  ∃ df', merged_crew (self (map_crew (run_merged run_names)).2) = Some df' ∧
         length df' = 1.
Proof.
  assert (Hdf : merged_crew (self (run_merged run_names))
    = Some (merged_of (init MOVIE_IDS run_crew run_principals run_names)))
    by reflexivity.
  split; [exact Hdf|].
  destruct (C3_names_follow_identifiers _ _ Hdf) as [_ H].
  destruct (H (map_crew (run_merged run_names)).2) as (df' & Hm & Hlen & _).
  - vm_compute. reflexivity.
  - exists df'. split; [exact Hm|]. rewrite Hlen. vm_compute. reflexivity.
Defined.

(** C4. If some identifier of some list of the merged table has no row in
    the names table, [map_crew] raises [IndexError]; the whole run then
    ends with that error, and the files are those present before it:
    crew_info.csv is not written. *)
Theorem C4_missing_name_aborts (ids : list string) (crew_tsv : DataFrame Crew.row)
    (principals_tsv : DataFrame Principals.row) (names_tsv : DataFrame Names.row)
    (fs : gmap string CsvFile) :
  frame_missing names_tsv (merged_of (init ids crew_tsv principals_tsv names_tsv)) →
  (∀ m, merged_crew (self m)
          = Some (merged_of (init ids crew_tsv principals_tsv names_tsv)) →
        names (self m) = names_tsv →
        ∃ m', map_crew m = (inl IndexError, m') ∧ files m' = files m) ∧
  ∃ m', pipeline ids crew_tsv principals_tsv names_tsv fs = (inl IndexError, m') ∧
        files m' = fs.
Proof.
  intros Hmiss. split.
  - intros m Hdf Hnm. pose proof (map_crew_spec m _ Hdf) as H.
    destruct (map_crew m) as [[e|[]] m']; simpl in H.
    + destruct H as (Hp & _ & _ & -> & _). exists m'. split; [done|]. by destruct Hp.
    + destruct H as (_ & _ & df' & _ & _ & Hres). rewrite Hnm in Hres.
      by destruct (resolved_frame_not_missing _ _ _ Hres).
  - pose proof (pipeline_spec ids crew_tsv principals_tsv names_tsv fs) as H.
    destruct (pipeline ids crew_tsv principals_tsv names_tsv fs) as [[e|[]] m'];
      simpl in H.
    + destruct H as (-> & _ & Hfs). by exists m'.
    + destruct H as (df' & _ & _ & Hres & _).
      by destruct (resolved_frame_not_missing _ _ _ Hres).
Qed.

Lemma C4_missing_name_aborts_witness :
  frame_missing run_names_short
    (merged_of (init MOVIE_IDS run_crew run_principals run_names_short)) ∧
  ∃ m', pipeline MOVIE_IDS run_crew run_principals run_names_short ∅
          = (inl IndexError, m') ∧ files m' = ∅.
Proof.
  assert (Hmiss : frame_missing run_names_short
    (merged_of (init MOVIE_IDS run_crew run_principals run_names_short))).
  { exists 0, 0. eexists. split; [vm_compute; reflexivity|].
    exists Col3, "nm0002011". split; [|vm_compute; reflexivity].
    simpl. right. left. }
  split; [exact Hmiss|].
  exact (proj2 (C4_missing_name_aborts MOVIE_IDS run_crew run_principals
                  run_names_short ∅ Hmiss)).
Defined.

(** C5. Resolving an identifier that is in [mappings] gives the stored
    value and leaves the state as it is, so the names table is not
    searched; and over a whole pass of [map_crew], whatever its outcome,
    the identifiers the names table is searched for are pairwise
    distinct. *)
Theorem C5_memoized_lookup (m : Machine) (nconst name : string) :
  mappings m !! nconst = Some name →
  resolve nconst m = (inr name, m) ∧
  names_queries (resolve nconst m).2 = names_queries m ∧
  ∀ m0 : Machine,
    ∃ qs, names_queries (map_crew m0).2 = names_queries m0 ++ qs ∧ NoDup qs.
Proof.
  intros Hc.
  assert (Hr : resolve nconst m = (inr name, m)).
  { unfold resolve, mbind, M_bind, get, mret, M_ret. simpl. by rewrite Hc. }
  split; [done|]. split; [by rewrite Hr|].
  intros m0. destruct (merged_crew (self m0)) as [df|] eqn:Hdf.
  - pose proof (map_crew_spec m0 df Hdf) as H.
    destruct (map_crew m0) as [[e|[]] m']; simpl in *.
    + by destruct H as (_ & (qs & Hq) & _); exists qs.
    + by destruct H as (_ & (qs & Hq) & _); exists qs.
  - rewrite (map_crew_unmerged _ Hdf). exists []. simpl.
    split; [by rewrite app_nil_r | constructor].
Qed.

Lemma C5_memoized_lookup_witness :
  mappings run_cached !! "nm0002011" = Some "Lee J. Cobb" ∧
  resolve "nm0002011" run_cached = (inr "Lee J. Cobb", run_cached).
Proof.
  assert (H : mappings run_cached !! "nm0002011" = Some "Lee J. Cobb")
    by (vm_compute; reflexivity).
  split; [exact H|].
  exact (proj1 (C5_memoized_lookup run_cached "nm0002011" "Lee J. Cobb" H)).
Defined.

(** C6, as amended. For every non-empty list of strings without a comma,
    joining with commas and then splitting on commas gives the list back;
    and for every string, splitting on commas and then joining with commas
    gives the string back. *)
Theorem C6_join_split_roundtrip (l : list string) :
  l ≠ [] → Forall (λ x, no_char comma x = true) l →
  str_split comma (str_join comma l) = l ∧
  ∀ s : string, str_join comma (str_split comma s) = s.
Proof.
  intros Hne Hall. split; [by apply str_split_join|]. apply str_join_split.
Qed.

Lemma C6_join_split_roundtrip_witness :
  ["nm4"; "nm5"] ≠ [] ∧
  Forall (λ x, no_char comma x = true) ["nm4"; "nm5"] ∧
  str_split comma (str_join comma ["nm4"; "nm5"]) = ["nm4"; "nm5"].
Proof.
  assert (Hne : ["nm4"; "nm5"] ≠ @nil string) by discriminate.
  assert (Hall : Forall (λ x, no_char comma x = true) ["nm4"; "nm5"])
    by (repeat constructor).
  split; [exact Hne|]. split; [exact Hall|].
  exact (proj1 (C6_join_split_roundtrip ["nm4"; "nm5"] Hne Hall)).
Defined.

(** C6 as stated fails on the empty list: its join is the empty string,
    which splits into one empty piece. *)
Lemma C6_empty_list_counterexample :
  Forall (λ x, no_char comma x = true) [] ∧
  str_split comma (str_join comma []) = [""] ∧
  str_split comma (str_join comma []) ≠ [].
Proof. split; [constructor|]. split; [reflexivity | discriminate]. Qed.

(** In the merge the joined groups are never empty: the actors cell of a
    merged row is the list of the film's actors. *)
Lemma merged_row_actors (rd : CrewReader) (c : Crew.row) :
  has_actor (principals rd) (Crew.tconst c) →
  Forall (λ x, no_char comma x = true) (actors_of (Crew.tconst c) (principals rd)) →
  Merged.actors (merged_row rd c) = actors_of (Crew.tconst c) (principals rd).
Proof.
  intros (p & Hp & Hk & Hcat) Hall. simpl. apply str_split_join; [|done].
  unfold actors_of. intros Hnil.
  apply fmap_nil_inv in Hnil.
  assert (Hin : p ∈ filter (λ r, Principals.tconst r = Crew.tconst c)
                  (loc_actor (principals rd)).*2).
  { apply list_elem_of_filter. split; [done|]. by apply elem_of_loc_actor. }
  rewrite Hnil in Hin. by apply elem_of_nil in Hin.
Qed.

(** C7. [merge_crew] returns and stores a table whose rows are exactly
    the rows [merged_row] of the crew rows of films with an actor; in such
    a row, a directors or writers field without a comma, as the marker
    of a missing value, becomes the one-element list of that very string. *)
Theorem C7_marker_kept (m : Machine) (c : Crew.row) :
  c ∈ (crew (self m)).*2 → has_actor (principals (self m)) (Crew.tconst c) →
  ∃ m' df,
    merge_crew m = (inr (), m') ∧ merged_crew (self m') = Some df ∧
    (∀ row, row ∈ df.*2 ↔
       ∃ c', c' ∈ (crew (self m)).*2 ∧
             has_actor (principals (self m)) (Crew.tconst c') ∧
             row = merged_row (self m) c') ∧
    merged_row (self m) c ∈ df.*2 ∧
    (no_char comma (Crew.directors c) = true →
       Merged.directors (merged_row (self m) c) = [Crew.directors c]) ∧
    (no_char comma (Crew.writers c) = true →
       Merged.writers (merged_row (self m) c) = [Crew.writers c]).
Proof.
  intros Hc Hact.
  destruct (merge_crew_spec m) as (m' & Hrun & _ & Hm' & _).
  exists m', (merged_of (self m)). split; [done|]. split; [done|].
  split; [apply elem_of_merged_of|]. split.
  - apply elem_of_merged_of. by exists c.
  - split; intros Hno; simpl; by apply str_split_no_char.
Qed.

Lemma C7_marker_kept_witness :
  ∃ m' df,
    merge_crew marker_machine = (inr (), m') ∧ merged_crew (self m') = Some df ∧
    {| Merged.tconst := "tt0050083"; Merged.directors := ["\N"];
       Merged.writers := ["\N"]; Merged.actors := ["nm0000020"; "nm0002011"] |}
      ∈ df.*2.
Proof.
  set (c := {| Crew.tconst := "tt0050083"; Crew.directors := "\N";
               Crew.writers := "\N" |}).
  assert (Hc : c ∈ (crew (self marker_machine)).*2) by (vm_compute; left).
  assert (Hact : has_actor (principals (self marker_machine)) (Crew.tconst c)).
  { exists {| Principals.tconst := "tt0050083"; Principals.nconst := "nm0000020";
              Principals.category := "actor" |}.
    split; [vm_compute; left | split; reflexivity]. }
  destruct (C7_marker_kept marker_machine c Hc Hact)
    as (m' & df & Hrun & Hm & _ & Hin & _).
  exists m', df. split; [exact Hrun|]. split; [exact Hm|]. exact Hin.
Defined.

Lemma first_name_first_match (pre post : DataFrame Names.row) (l : nat) (r : Names.row) :
  Forall (λ x, Names.nconst x.2 ≠ Names.nconst r) pre →
  first_name (pre ++ (l, r) :: post) (Names.nconst r) = Some (Names.primaryName r).
Proof.
  intros Hpre. unfold first_name, names_loc.
  rewrite fmap_app, filter_app, fmap_cons. simpl.
  rewrite filter_cons_True by done.
  replace (filter (λ r0, Names.nconst r0 = Names.nconst r) pre.*2) with (@nil Names.row);
    [done|].
  symmetry. induction Hpre as [|x pre Hx Hpre IH]; [done|].
  rewrite fmap_cons, filter_cons_False by done. exact IH.
Qed.

(** C8. In a state whose cache is sound -- as it is throughout a pass,
    which starts from the empty dict -- resolving the identifier of a row
    of the names table that no earlier row shares gives the display name
    of that row, whether or not later rows share the identifier. *)
Theorem C8_first_matching_row (m : Machine) (pre post : DataFrame Names.row)
    (l : nat) (r : Names.row) :
  names (self m) = pre ++ (l, r) :: post →
  Forall (λ x, Names.nconst x.2 ≠ Names.nconst r) pre →
  cache_ok m →
  ∃ m', resolve (Names.nconst r) m = (inr (Names.primaryName r), m') ∧
        mappings m' !! Names.nconst r = Some (Names.primaryName r).
Proof.
  intros Hnm Hpre Hc.
  pose proof (first_name_first_match pre post l r Hpre) as Hfirst.
  rewrite <- Hnm in Hfirst.
  unfold resolve, mbind, M_bind, get, mret, M_ret, modify. simpl.
  destruct (mappings m !! Names.nconst r) as [v|] eqn:Hv.
  - pose proof (Hc _ _ Hv) as Hv'.
    assert (v = Names.primaryName r) as -> by congruence.
    by exists m.
  - unfold first_name in Hfirst. rewrite Hfirst. simpl.
    eexists. split; [reflexivity|]. simpl. apply lookup_insert_eq.
Qed.

Lemma C8_first_matching_row_witness :
  ∃ m', resolve "nm0000020" dup_machine = (inr "Henry Fonda", m') ∧
        mappings m' !! "nm0000020" = Some "Henry Fonda".
Proof.
  apply (C8_first_matching_row dup_machine
           [(0, {| Names.nconst := "nm0001486"; Names.primaryName := "Sidney Lumet" |})]
           [(2, {| Names.nconst := "nm0000020"; Names.primaryName := "H. Fonda" |})]
           1 {| Names.nconst := "nm0000020"; Names.primaryName := "Henry Fonda" |}).
  - reflexivity.
  - repeat constructor. simpl. discriminate.
  - intros id v Hv. vm_compute in Hv. discriminate.
Defined.

(** ** One row per film *)

Lemma groupby_join_keys (df : DataFrame Principals.row) :
  NoDup (Actors.tconst <$> (groupby_join df).*2).
Proof.
  unfold groupby_join. rewrite range_index_rows, <- list_fmap_compose.
  rewrite (list_fmap_ext _ id) by done. rewrite list_fmap_id.
  rewrite merge_sort_Permutation. apply NoDup_remove_dups.
Qed.

Lemma filter_key_unique (acts : list Actors.row) (k : string) :
  NoDup (Actors.tconst <$> acts) →
  (length (filter (λ a, Actors.tconst a = k) acts) ≤ 1)%nat.
Proof.
  induction acts as [|a acts IH]; [simpl; lia|].
  rewrite fmap_cons. intros [Hnotin Hnd]%NoDup_cons.
  destruct (decide (Actors.tconst a = k)) as [Hk|Hk].
  - rewrite filter_cons_True by done.
    destruct (filter (λ a0, Actors.tconst a0 = k) acts) as [|x xs] eqn:Hf;
      [simpl; lia|].
    exfalso. apply Hnotin.
    assert (Hx : x ∈ filter (λ a0, Actors.tconst a0 = k) acts)
      by (rewrite Hf; left).
    apply list_elem_of_filter in Hx as [Hxk Hx].
    apply list_elem_of_fmap. exists x. split; [congruence | done].
  - rewrite filter_cons_False by done. by apply IH.
Qed.

Lemma pd_merge_films (left : DataFrame Crew.row) (right : DataFrame Actors.row) :
  NoDup (Actors.tconst <$> right.*2) →
  (Joined.tconst <$> (pd_merge left right).*2) `sublist_of` (Crew.tconst <$> left.*2).
Proof.
  intros Hnd. unfold pd_merge. rewrite range_index_rows.
  induction (left.*2) as [|c cs IH]; [constructor|].
  rewrite bind_cons, fmap_app, fmap_cons.
  pose proof (filter_key_unique right.*2 (Crew.tconst c) Hnd) as Hlen.
  destruct (filter (λ a, Actors.tconst a = Crew.tconst c) right.*2) as [|a [|a' l]].
  - simpl. by apply sublist_cons.
  - simpl. by apply sublist_skip.
  - simpl in Hlen. lia.
Qed.

Lemma merged_of_films (rd : CrewReader) :
  NoDup (Crew.tconst <$> (crew rd).*2) →
  NoDup (Merged.tconst <$> (merged_of rd).*2).
Proof.
  intros Hnd. unfold merged_of. rewrite split_columns_rows, <- list_fmap_compose.
  eapply sublist_NoDup; [exact Hnd|].
  apply (pd_merge_films (crew rd)), groupby_join_keys.
Qed.

Lemma crew_isin_films (ids : list string) (df : DataFrame Crew.row) :
  NoDup (Crew.tconst <$> df.*2) → NoDup (Crew.tconst <$> (crew_isin ids df).*2).
Proof.
  intros Hnd. eapply sublist_NoDup; [exact Hnd|].
  unfold crew_isin. induction df as [|[i c] df IH]; [constructor|].
  rewrite filter_cons. simpl in *. apply NoDup_cons in Hnd as [_ Hnd].
  destruct (decide (Crew.tconst c ∈ ids)); simpl.
  - by apply sublist_skip, IH.
  - by apply sublist_cons, IH.
Qed.

Lemma merged_of_labels (rd : CrewReader) :
  (merged_of rd).*1 = seq 0 (length (merged_of rd)).
Proof.
  unfold merged_of. rewrite split_columns_labels.
  unfold split_columns. rewrite length_fmap.
  unfold pd_merge. by rewrite range_index_labels, range_index_length.
Qed.

(** The table a complete run writes: labelled 0, 1, ... in row order, and
    with one row per film when the crew source has one row per film. *)
Lemma pipeline_output_index (ids : list string) (crew_tsv : DataFrame Crew.row)
    (principals_tsv : DataFrame Principals.row) (names_tsv : DataFrame Names.row)
    (fs : gmap string CsvFile) (m : Machine) :
  pipeline ids crew_tsv principals_tsv names_tsv fs = (inr (), m) →
  ∃ df, merged_crew (self m) = Some df ∧
        files m !! "crew_info.csv" = Some (to_csv df) ∧
        df.*1 = seq 0 (length df) ∧
        (NoDup (Crew.tconst <$> crew_tsv.*2) → NoDup (Merged.tconst <$> df.*2)).
Proof.
  intros Hrun.
  pose proof (pipeline_spec ids crew_tsv principals_tsv names_tsv fs) as H.
  rewrite Hrun in H. simpl in H. destruct H as (df & Hm & Hsh & _ & Hfs).
  exists df. split; [done|]. split; [by rewrite Hfs, lookup_insert_eq|].
  pose proof (same_shape_length _ _ Hsh) as Hlen. destruct Hsh as [Hl Ht].
  split.
  - by rewrite Hl, Hlen, merged_of_labels.
  - intros Hnd. rewrite Ht. by apply merged_of_films, crew_isin_films.
Qed.

(** C9, as amended. [write_to_csv] puts at the given path, whatever was
    there, the file made of the header (unnamed index, tconst, directors,
    writers, actors) and, for each row of the final table in order, its
    label and its four cells: one written row per row of the table;
    nothing else changes. In a complete run the labels are 0, 1, ... in
    row order, and there is one row per film when the crew source holds
    each film once. *)
Theorem C9_written_file (m : Machine) (df : DataFrame Merged.row) (output_file : string) :
  merged_crew (self m) = Some df →
  (∃ m', write_to_csv output_file m = (inr (), m') ∧
         files m' !! output_file = Some (to_csv df) ∧
         (∀ p, p ≠ output_file → files m' !! p = files m !! p) ∧
         self m' = self m) ∧
  csv_header (to_csv df) = [""; "tconst"; "directors"; "writers"; "actors"] ∧
  length (csv_rows (to_csv df)) = length df ∧
  (∀ (i l : nat) (row : Merged.row), df !! i = Some (l, row) →
     csv_rows (to_csv df) !! i
       = Some [FIndex l; FStr (Merged.tconst row); FList (Merged.directors row);
               FList (Merged.writers row); FList (Merged.actors row)]) ∧
  ∀ ids crew_tsv principals_tsv names_tsv fs mm,
    pipeline ids crew_tsv principals_tsv names_tsv fs = (inr (), mm) →
    ∃ out, merged_crew (self mm) = Some out ∧
           files mm !! "crew_info.csv" = Some (to_csv out) ∧
           out.*1 = seq 0 (length out) ∧
           (NoDup (Crew.tconst <$> crew_tsv.*2) →
            NoDup (Merged.tconst <$> out.*2)).
Proof.
  intros Hdf. split; [|split; [done|split; [|split]]].
  - exists (set_file output_file (to_csv df) m).
    split; [by apply write_to_csv_spec|]. simpl.
    split; [apply lookup_insert_eq|]. split; [|done].
    intros p Hp. by apply lookup_insert_ne.
  - simpl. by rewrite length_fmap.
  - intros i l row Hi. simpl. by rewrite list_lookup_fmap, Hi.
  - intros *. apply pipeline_output_index.
Qed.

Lemma C9_written_file_witness :
  merged_crew (self (map_crew (run_merged run_names)).2)
    = Some [(0, {| Merged.tconst := "tt0050083";
                   Merged.directors := ["Sidney Lumet"];
                   Merged.writers := ["Reginald Rose"];
                   Merged.actors := ["Henry Fonda"; "Lee J. Cobb"] |})] ∧
  ∃ m', write_to_csv "crew_info.csv" (map_crew (run_merged run_names)).2 = (inr (), m') ∧
        files m' !! "crew_info.csv"
          = Some {| csv_header := [""; "tconst"; "directors"; "writers"; "actors"];
                    csv_rows := [[FIndex 0; FStr "tt0050083"; FList ["Sidney Lumet"];
                                  FList ["Reginald Rose"];
                                  FList ["Henry Fonda"; "Lee J. Cobb"]]] |}.
Proof.
  assert (Hdf : merged_crew (self (map_crew (run_merged run_names)).2)
    = Some [(0, {| Merged.tconst := "tt0050083";
                   Merged.directors := ["Sidney Lumet"];
                   Merged.writers := ["Reginald Rose"];
                   Merged.actors := ["Henry Fonda"; "Lee J. Cobb"] |})])
    by (vm_compute; reflexivity).
  split; [exact Hdf|].
  destruct (C9_written_file _ _ "crew_info.csv" Hdf) as [(m' & Hrun & Hf & _) _].
  exists m'. split; [exact Hrun | exact Hf].
Defined.

(** C9 as stated fails on a crew source that holds a film twice: the
    merge keeps both crew rows, and the file written has two rows for
    that film. *)
Lemma C9_repeated_film_counterexample :
  (main repeated_crew run_principals run_names ∅).1 = inr () ∧
  csv_rows <$> files (main repeated_crew run_principals run_names ∅).2 !! "crew_info.csv"
    = Some [[FIndex 0; FStr "tt0050083"; FList ["Sidney Lumet"];
             FList ["Reginald Rose"]; FList ["Henry Fonda"; "Lee J. Cobb"]];
            [FIndex 1; FStr "tt0050083"; FList ["Sidney Lumet"];
             FList ["Reginald Rose"]; FList ["Henry Fonda"; "Lee J. Cobb"]]] ∧
  ¬ NoDup ["tt0050083"; "tt0050083"].
Proof.
  split; [vm_compute; reflexivity|]. split; [vm_compute; reflexivity|].
  intros [Hnotin _]%NoDup_cons. apply Hnotin. left.
Qed.

(** C10. Whatever its outcome, [map_crew] leaves the crew, principals and
    names tables and the files as they were; of the merged table it keeps
    the number of rows, their labels and their film identifiers, row by
    row. *)
Theorem C10_map_crew_frame (m : Machine) :
  crew (self (map_crew m).2) = crew (self m) ∧
  principals (self (map_crew m).2) = principals (self m) ∧
  names (self (map_crew m).2) = names (self m) ∧
  files (map_crew m).2 = files m ∧
  match merged_crew (self m) with
  | Some df =>
      ∃ df', merged_crew (self (map_crew m).2) = Some df' ∧
             length df' = length df ∧
             df'.*1 = df.*1 ∧
             Merged.tconst <$> df'.*2 = Merged.tconst <$> df.*2
  | None => merged_crew (self (map_crew m).2) = None
  end.
Proof.
  destruct (merged_crew (self m)) as [df|] eqn:Hdf.
  - pose proof (map_crew_spec m df Hdf) as H.
    destruct (map_crew m) as [[e|[]] m']; simpl in *.
    + destruct H as ([] & _ & (df' & Hm & Hsh) & _).
      do 4 (split; [done|]). exists df'. split; [done|].
      split; [by apply same_shape_length|]. by destruct Hsh.
    + destruct H as ([] & _ & df' & Hm & Hsh & _).
      do 4 (split; [done|]). exists df'. split; [done|].
      split; [by apply same_shape_length|]. by destruct Hsh.
  - rewrite (map_crew_unmerged _ Hdf). simpl. by rewrite Hdf.
Qed.

(** ** Beyond the specification: what the merge keeps *)

Lemma fmap_snd_filter {A B : Type} (P : B → Prop) `{!∀ x, Decision (P x)}
    `{!∀ ir : A * B, Decision (P ir.2)} (l : list (A * B)) :
  (filter (λ ir, P ir.2) l).*2 = filter P l.*2.
Proof.
  induction l as [|[a b] l IH]; [done|].
  rewrite fmap_cons. cbn [snd]. destruct (decide (P b)) as [Hb|Hb].
  - rewrite !filter_cons_True by done. rewrite fmap_cons. cbn [snd]. by rewrite IH.
  - rewrite !filter_cons_False by done. exact IH.
Qed.

Lemma actors_of_init (ids : list string) (ps : DataFrame Principals.row) (k : string) :
  k ∈ ids → actors_of k (principals_isin ids ps) = film_actors k ps.
Proof.
  intros Hk. unfold actors_of, film_actors, loc_actor, principals_isin.
  rewrite (fmap_snd_filter (λ p, Principals.category p = "actor")).
  rewrite (fmap_snd_filter (λ p, Principals.tconst p ∈ ids)).
  rewrite !list_filter_filter. f_equal.
  apply list_filter_iff. intros p. split; [tauto|].
  intros [Hp Hc]. assert (Principals.tconst p ∈ ids) by (by rewrite Hp). tauto.
Qed.

Lemma has_actor_init (ids : list string) (ps : DataFrame Principals.row) (k : string) :
  k ∈ ids → has_actor ps k → has_actor (principals_isin ids ps) k.
Proof.
  intros Hk (p & Hp & Hpk & Hc). exists p. split; [|done].
  unfold principals_isin. rewrite (fmap_snd_filter (λ p, Principals.tconst p ∈ ids)).
  apply list_elem_of_filter. split; [by rewrite Hpk | done].
Qed.

Lemma merged_of_init_elem (ids : list string) (crew_tsv : DataFrame Crew.row)
    (principals_tsv : DataFrame Principals.row) (names_tsv : DataFrame Names.row)
    (c : Crew.row) :
  c ∈ crew_tsv.*2 → Crew.tconst c ∈ ids → has_actor principals_tsv (Crew.tconst c) →
  merged_row (init ids crew_tsv principals_tsv names_tsv) c
    ∈ (merged_of (init ids crew_tsv principals_tsv names_tsv)).*2.
Proof.
  intros Hc Hk Hact. apply elem_of_merged_of. exists c. simpl.
  split; [|split; [by apply has_actor_init | done]].
  unfold crew_isin. rewrite (fmap_snd_filter (λ c, Crew.tconst c ∈ ids)).
  by apply list_elem_of_filter.
Qed.

(** X1. In a complete run, every crew source row of a movie of interest
    that has an actor row is in the final table: under its film
    identifier, with the first names of the pieces of its directors and
    writers fields, in order. *)
Theorem X1_qualifying_film_is_written (ids : list string) (crew_tsv : DataFrame Crew.row)
    (principals_tsv : DataFrame Principals.row) (names_tsv : DataFrame Names.row)
    (fs : gmap string CsvFile) (m : Machine) (c : Crew.row) :
  pipeline ids crew_tsv principals_tsv names_tsv fs = (inr (), m) →
  c ∈ crew_tsv.*2 → Crew.tconst c ∈ ids → has_actor principals_tsv (Crew.tconst c) →
  ∃ df l row,
    merged_crew (self m) = Some df ∧
    files m !! "crew_info.csv" = Some (to_csv df) ∧
    (l, row) ∈ df ∧
    Merged.tconst row = Crew.tconst c ∧
    all_names names_tsv (str_split comma (Crew.directors c)) (Merged.directors row) ∧
    all_names names_tsv (str_split comma (Crew.writers c)) (Merged.writers row).
Proof.
  intros Hrun Hc Hk Hact.
  pose proof (pipeline_spec ids crew_tsv principals_tsv names_tsv fs) as H.
  rewrite Hrun in H. simpl in H. destruct H as (df & Hm & _ & Hres & Hfs).
  pose proof (merged_of_init_elem ids crew_tsv principals_tsv names_tsv c Hc Hk Hact)
    as Hin.
  apply list_elem_of_fmap in Hin as ([l row0] & Hrow0 & Hin). simpl in Hrow0.
  apply list_elem_of_lookup in Hin as [i Hi].
  destruct (Forall2_lookup_l _ _ _ _ _ Hres Hi) as ([l' row] & Hi' & Hl & Hrow).
  simpl in Hl, Hrow. destruct Hrow as (Ht & Hd & Hw & _).
  exists df, l', row. split; [done|]. split; [by rewrite Hfs, lookup_insert_eq|].
  split; [by eapply list_elem_of_lookup_2|].
  rewrite <- Hrow0 in Ht, Hd, Hw. done.
Qed.

Lemma X1_qualifying_film_is_written_witness :
  ∃ df l row,
    merged_crew (self (main run_crew run_principals run_names ∅).2) = Some df ∧
    files (main run_crew run_principals run_names ∅).2 !! "crew_info.csv"
      = Some (to_csv df) ∧
    (l, row) ∈ df ∧
    Merged.tconst row = "tt0050083" ∧
    all_names run_names ["nm0001486"] (Merged.directors row) ∧
    all_names run_names ["nm0741627"] (Merged.writers row).
Proof.
  apply (X1_qualifying_film_is_written MOVIE_IDS run_crew run_principals run_names ∅
           (main run_crew run_principals run_names ∅).2
           {| Crew.tconst := "tt0050083"; Crew.directors := "nm0001486";
              Crew.writers := "nm0741627" |}).
  - vm_compute. reflexivity.
  - vm_compute. left.
  - vm_compute. left.
  - exists {| Principals.tconst := "tt0050083"; Principals.nconst := "nm0000020";
              Principals.category := "actor" |}.
    split; [vm_compute; left | split; reflexivity].
Defined.

Lemma crew_isin_sublist (ids : list string) (df : DataFrame Crew.row) :
  (Crew.tconst <$> (crew_isin ids df).*2) `sublist_of` (Crew.tconst <$> df.*2).
Proof.
  unfold crew_isin. induction df as [|[i c] df IH]; [constructor|].
  rewrite filter_cons. simpl. destruct (decide (Crew.tconst c ∈ ids)); simpl.
  - by apply sublist_skip.
  - by apply sublist_cons.
Qed.

(** X2. When the crew source holds each film once, in a complete run
    the film identifiers of the final table, read top to bottom, are
    pairwise distinct and a subsequence of those of the crew source: the
    rows stay in crew order, whatever the order of the identifiers. *)
Theorem X2_films_in_crew_order (ids : list string) (crew_tsv : DataFrame Crew.row)
    (principals_tsv : DataFrame Principals.row) (names_tsv : DataFrame Names.row)
    (fs : gmap string CsvFile) (m : Machine) :
  NoDup (Crew.tconst <$> crew_tsv.*2) →
  pipeline ids crew_tsv principals_tsv names_tsv fs = (inr (), m) →
  ∃ df, merged_crew (self m) = Some df ∧
        files m !! "crew_info.csv" = Some (to_csv df) ∧
        NoDup (Merged.tconst <$> df.*2) ∧
        (Merged.tconst <$> df.*2) `sublist_of` (Crew.tconst <$> crew_tsv.*2).
Proof.
  intros Hnd Hrun.
  pose proof (pipeline_spec ids crew_tsv principals_tsv names_tsv fs) as H.
  rewrite Hrun in H. simpl in H. destruct H as (df & Hm & [_ Ht] & _ & Hfs).
  exists df. split; [done|]. split; [by rewrite Hfs, lookup_insert_eq|].
  assert (Hsub : (Merged.tconst <$> df.*2) `sublist_of` (Crew.tconst <$> crew_tsv.*2)).
  { rewrite Ht. unfold merged_of. rewrite split_columns_rows, <- list_fmap_compose.
    transitivity (Crew.tconst <$> (crew_isin ids crew_tsv).*2);
      [|apply crew_isin_sublist].
    apply (pd_merge_films (crew_isin ids crew_tsv)), groupby_join_keys. }
  split; [|done]. by eapply sublist_NoDup.
Qed.

Lemma X2_films_in_crew_order_witness :
  NoDup (Crew.tconst <$> order_crew.*2) ∧
  Merged.tconst <$>
    (default [] (merged_crew (self (main order_crew order_principals order_names ∅).2))).*2
    = ["tt0062622"; "tt0050083"] ∧
  ∃ df, merged_crew (self (main order_crew order_principals order_names ∅).2) = Some df ∧
        files (main order_crew order_principals order_names ∅).2 !! "crew_info.csv"
          = Some (to_csv df) ∧
        NoDup (Merged.tconst <$> df.*2) ∧
        (Merged.tconst <$> df.*2) `sublist_of` (Crew.tconst <$> order_crew.*2).
Proof.
  assert (Hnd : NoDup (Crew.tconst <$> order_crew.*2)).
  { simpl. repeat (apply NoDup_cons; split;
      [rewrite ?elem_of_cons, elem_of_nil; intros H; repeat destruct H as [H|H];
       done|]).
    apply NoDup_nil_2. }
  split; [exact Hnd|]. split; [vm_compute; reflexivity|].
  apply (X2_films_in_crew_order MOVIE_IDS order_crew order_principals order_names ∅
           _ Hnd).
  vm_compute. reflexivity.
Defined.

(** X3. In the table [merge_crew] builds for a fresh reader, the actors
    cell of a row holds the identifiers of the principals rows of that
    film whose category is exactly "actor", in the order of the principals
    source, provided none of them contains a comma. *)
Theorem X3_actors_in_source_order (ids : list string) (crew_tsv : DataFrame Crew.row)
    (principals_tsv : DataFrame Principals.row) (names_tsv : DataFrame Names.row)
    (row : Merged.row) :
  row ∈ (merged_of (init ids crew_tsv principals_tsv names_tsv)).*2 →
  Forall (λ x, no_char comma x = true) (film_actors (Merged.tconst row) principals_tsv) →
  Merged.actors row = film_actors (Merged.tconst row) principals_tsv ∧
  Merged.actors row ≠ [].
Proof.
  intros Hin Hall.
  pose proof (merged_of_init_films _ _ _ _ _ Hin) as (Hk & _ & _).
  apply elem_of_merged_of in Hin as (c & Hc & Hact & ->). simpl in *.
  rewrite actors_of_init in * by done.
  assert (Hne : film_actors (Crew.tconst c) principals_tsv ≠ []).
  { destruct Hact as (p & Hp & Hpk & Hcat). unfold film_actors. intros Hnil.
    apply fmap_nil_inv in Hnil.
    assert (Hpin : p ∈ filter (λ p, Principals.tconst p = Crew.tconst c ∧
                                   Principals.category p = "actor") principals_tsv.*2).
    { apply list_elem_of_filter. split; [done|].
      unfold principals_isin in Hp.
      rewrite (fmap_snd_filter (λ p, Principals.tconst p ∈ ids)) in Hp.
      by apply list_elem_of_filter in Hp as [_ Hp]. }
    rewrite Hnil in Hpin. by apply elem_of_nil in Hpin. }
  rewrite str_split_join by done. done.
Qed.

Lemma X3_actors_in_source_order_witness :
  Merged.actors (merged_row (init MOVIE_IDS run_crew run_principals run_names)
                   {| Crew.tconst := "tt0050083"; Crew.directors := "nm0001486";
                      Crew.writers := "nm0741627" |})
    = ["nm0000020"; "nm0002011"].
Proof.
  refine (proj1 (X3_actors_in_source_order MOVIE_IDS run_crew run_principals run_names
                   (merged_row (init MOVIE_IDS run_crew run_principals run_names)
                      {| Crew.tconst := "tt0050083"; Crew.directors := "nm0001486";
                         Crew.writers := "nm0741627" |}) _ _)).
  - vm_compute. left.
  - vm_compute. repeat constructor.
Defined.

(** ** Beyond the specification: errors and edge cases *)

(** X4. On a reader on which [merge_crew] has not run there is no
    [merged_crew]: [map_crew] and [write_to_csv] both raise
    [AttributeError], and no file is written. *)
Theorem X4_methods_need_merge (ids : list string) (crew_tsv : DataFrame Crew.row)
    (principals_tsv : DataFrame Principals.row) (names_tsv : DataFrame Names.row)
    (fs : gmap string CsvFile) (output_file : string) :
  (map_crew (boot (init ids crew_tsv principals_tsv names_tsv) fs)).1
    = inl AttributeError ∧
  files (map_crew (boot (init ids crew_tsv principals_tsv names_tsv) fs)).2 = fs ∧
  (write_to_csv output_file (boot (init ids crew_tsv principals_tsv names_tsv) fs)).1
    = inl AttributeError ∧
  files (write_to_csv output_file
           (boot (init ids crew_tsv principals_tsv names_tsv) fs)).2 = fs ∧
  ((map_crew;; write_to_csv output_file)
     (boot (init ids crew_tsv principals_tsv names_tsv) fs)).1 = inl AttributeError.
Proof.
  set (m := boot _ fs).
  assert (Hm : merged_crew (self m) = None) by reflexivity.
  unfold mbind, M_bind. rewrite (map_crew_unmerged m Hm).
  unfold write_to_csv, get_merged_crew, mbind, M_bind, get, raise. simpl.
  done.
Qed.

Lemma str_split_pieces (sep : ascii) (s : string) :
  Forall (λ x, no_char sep x = true) (str_split sep s).
Proof.
  induction s as [|c s IH]; [by repeat constructor|].
  cbn [str_split]. destruct (Ascii.eqb c sep) eqn:Hc.
  - by constructor.
  - destruct (str_split sep s) as [|w ws]; [by repeat constructor; simpl; rewrite Hc|].
    apply Forall_cons in IH as [Hw Hws]. constructor; [|done].
    simpl. by rewrite Hc, Hw.
Qed.

(** X5. In the table [merge_crew] stores, no list cell is empty and no
    identifier contains a comma; the directors and writers cells, joined
    with commas again, are the fields of a crew row of the same film. *)
Theorem X5_split_cells (m : Machine) :
  ∃ m' df,
    merge_crew m = (inr (), m') ∧ merged_crew (self m') = Some df ∧
    ∀ row, row ∈ df.*2 →
      (∀ j, col_get j row ≠ [] ∧ Forall (λ x, no_char comma x = true) (col_get j row)) ∧
      ∃ c, c ∈ (crew (self m)).*2 ∧
           Crew.tconst c = Merged.tconst row ∧
           str_join comma (Merged.directors row) = Crew.directors c ∧
           str_join comma (Merged.writers row) = Crew.writers c.
Proof.
  destruct (merge_crew_spec m) as (m' & Hrun & _ & Hm' & _).
  exists m', (merged_of (self m)). split; [done|]. split; [done|].
  intros row (c & Hc & _ & ->)%elem_of_merged_of. split.
  - intros j. destruct j; simpl; (split; [apply str_split_nonempty|apply str_split_pieces]).
  - exists c. split; [done|]. split; [done|]. simpl. by rewrite !str_join_split.
Qed.

Lemma first_name_None (nm : DataFrame Names.row) (x : string) :
  first_name nm x = None ↔ ∀ r, r ∈ nm.*2 → Names.nconst r ≠ x.
Proof.
  unfold first_name, names_loc. split.
  - intros Hnone r Hr Heq.
    assert (Hin : r ∈ filter (λ r, Names.nconst r = x) nm.*2)
      by (by apply list_elem_of_filter).
    destruct (filter (λ r, Names.nconst r = x) nm.*2) as [|y l]; [|done].
    by apply elem_of_nil in Hin.
  - intros Hall.
    destruct (filter (λ r, Names.nconst r = x) nm.*2) as [|y l] eqn:Hf; [done|].
    assert (Hin : y ∈ filter (λ r, Names.nconst r = x) nm.*2) by (rewrite Hf; left).
    apply list_elem_of_filter in Hin as [Hy Hin]. by destruct (Hall y Hin).
Qed.

Lemma first_name_Some (nm : DataFrame Names.row) (x name : string) :
  first_name nm x = Some name →
  ∃ r, r ∈ nm.*2 ∧ Names.nconst r = x ∧ Names.primaryName r = name.
Proof.
  unfold first_name, names_loc. intros H.
  destruct (filter (λ r, Names.nconst r = x) nm.*2) as [|y l] eqn:Hf; [done|].
  simpl in H. injection H as <-.
  assert (Hin : y ∈ filter (λ r, Names.nconst r = x) nm.*2) by (rewrite Hf; left).
  apply list_elem_of_filter in Hin as [Hy Hin]. by exists y.
Qed.

(** X6. If a crew source row of a movie of interest with an actor row has
    a directors or writers field without a comma -- a single identifier,
    or the marker of a missing value -- for which the names table has no
    row, the run ends with [IndexError] and writes no file. *)
Theorem X6_unnamed_field_aborts (ids : list string) (crew_tsv : DataFrame Crew.row)
    (principals_tsv : DataFrame Principals.row) (names_tsv : DataFrame Names.row)
    (fs : gmap string CsvFile) (c : Crew.row) (s : string) :
  c ∈ crew_tsv.*2 → Crew.tconst c ∈ ids → has_actor principals_tsv (Crew.tconst c) →
  Crew.directors c = s ∨ Crew.writers c = s →
  no_char comma s = true →
  (∀ r, r ∈ names_tsv.*2 → Names.nconst r ≠ s) →
  ∃ m', pipeline ids crew_tsv principals_tsv names_tsv fs = (inl IndexError, m') ∧
        files m' = fs.
Proof.
  intros Hc Hk Hact Hs Hno Hnm.
  pose proof (merged_of_init_elem ids crew_tsv principals_tsv names_tsv c Hc Hk Hact)
    as Hin.
  apply list_elem_of_fmap in Hin as ([l row0] & Hrow0 & Hin). simpl in Hrow0.
  apply list_elem_of_lookup in Hin as [i Hi].
  assert (Hmiss : frame_missing names_tsv
                    (merged_of (init ids crew_tsv principals_tsv names_tsv))).
  { exists i, l, row0. split; [done|]. subst row0.
    destruct Hs as [Hs|Hs].
    - exists Col1, s. split; [|by apply first_name_None].
      simpl. rewrite Hs, str_split_no_char by done. left.
    - exists Col2, s. split; [|by apply first_name_None].
      simpl. rewrite Hs, str_split_no_char by done. left. }
  pose proof (pipeline_spec ids crew_tsv principals_tsv names_tsv fs) as H.
  destruct (pipeline ids crew_tsv principals_tsv names_tsv fs) as [[e|[]] m'];
    simpl in H.
  - destruct H as (-> & _ & Hfs). by exists m'.
  - destruct H as (df' & _ & _ & Hres & _).
    by destruct (resolved_frame_not_missing _ _ _ Hres).
Qed.

Lemma X6_unnamed_field_aborts_witness :
  ∃ m', pipeline MOVIE_IDS marker_crew run_principals run_names ∅
          = (inl IndexError, m') ∧ files m' = ∅.
Proof.
  apply (X6_unnamed_field_aborts MOVIE_IDS marker_crew run_principals run_names ∅
           {| Crew.tconst := "tt0050083"; Crew.directors := "\N"; Crew.writers := "\N" |}
           "\N").
  - vm_compute. left.
  - vm_compute. left.
  - exists {| Principals.tconst := "tt0050083"; Principals.nconst := "nm0000020";
              Principals.category := "actor" |}.
    split; [vm_compute; left | split; reflexivity].
  - left. reflexivity.
  - reflexivity.
  - intros r Hr. vm_compute in Hr.
    repeat (apply elem_of_cons in Hr as [->|Hr]; [simpl; discriminate|]).
    by apply elem_of_nil in Hr.
Defined.

(** X7. The movies of interest act as a set: two lists with the same
    members give the same run. *)
Theorem X7_movie_ids_as_set (ids ids' : list string) (crew_tsv : DataFrame Crew.row)
    (principals_tsv : DataFrame Principals.row) (names_tsv : DataFrame Names.row)
    (fs : gmap string CsvFile) :
  (∀ x, x ∈ ids ↔ x ∈ ids') →
  pipeline ids crew_tsv principals_tsv names_tsv fs
    = pipeline ids' crew_tsv principals_tsv names_tsv fs.
Proof.
  intros Hiff. unfold pipeline, init, crew_isin, principals_isin.
  rewrite (list_filter_iff (λ ir, Crew.tconst ir.2 ∈ ids)
             (λ ir, Crew.tconst ir.2 ∈ ids')) by (intros; apply Hiff).
  rewrite (list_filter_iff (λ ir, Principals.tconst ir.2 ∈ ids)
             (λ ir, Principals.tconst ir.2 ∈ ids')) by (intros; apply Hiff).
  done.
Qed.

Lemma X7_movie_ids_as_set_witness :
  pipeline ["tt0001"; "tt0002"] ex_crew ex_principals ex_names ∅
    = pipeline ["tt0002"; "tt0001"; "tt0002"] ex_crew ex_principals ex_names ∅.
Proof.
  apply X7_movie_ids_as_set. intros x.
  rewrite !elem_of_cons, !elem_of_nil. tauto.
Defined.

Lemma elem_of_row_ids (row : Merged.row) (id : string) :
  id ∈ row_ids row ↔ ∃ j, id ∈ col_get j row.
Proof.
  unfold row_ids. rewrite !elem_of_app. split.
  - intros [H|[H|H]]; [by exists Col1 | by exists Col2 | by exists Col3].
  - intros [[] H]; simpl in H; auto.
Qed.

Lemma elem_of_frame_ids (df : DataFrame Merged.row) (id : string) :
  id ∈ frame_ids df ↔
    ∃ (i l : nat) (row : Merged.row) (j : ListCol),
      df !! i = Some (l, row) ∧ id ∈ col_get j row.
Proof.
  unfold frame_ids. rewrite list_elem_of_bind. split.
  - intros (row & [j Hj]%elem_of_row_ids & ([l row'] & -> & [i Hi]%list_elem_of_lookup)%list_elem_of_fmap).
    by exists i, l, row', j.
  - intros (i & l & row & j & Hi & Hj). exists row. split.
    + apply elem_of_row_ids. by exists j.
    + apply list_elem_of_fmap. exists (l, row). split; [done|].
      by eapply list_elem_of_lookup_2.
Qed.

Lemma frame_missing_ids (nm : DataFrame Names.row) (df : DataFrame Merged.row) :
  frame_missing nm df ↔ ∃ id, id ∈ frame_ids df ∧ first_name nm id = None.
Proof.
  split.
  - intros (i & l & row & Hi & j & id & Hid & Hnone). exists id. split; [|done].
    apply elem_of_frame_ids. by exists i, l, row, j.
  - intros (id & (i & l & row & j & Hi & Hid)%elem_of_frame_ids & Hnone).
    exists i, l, row. split; [done|]. by exists j, id.
Qed.

(** X8. [map_crew] is to be run once: after a pass that returned, on a
    table holding at least one identifier, a second pass takes the names
    for identifiers and raises [IndexError], unless some display name of
    the names table is also an identifier in it. *)
Theorem X8_second_pass_fails (m m1 : Machine) (df : DataFrame Merged.row) :
  merged_crew (self m) = Some df →
  map_crew m = (inr (), m1) →
  frame_ids df ≠ [] →
  (∀ r r', r ∈ (names (self m)).*2 → r' ∈ (names (self m)).*2 →
           Names.primaryName r ≠ Names.nconst r') →
  ∃ m2, map_crew m1 = (inl IndexError, m2).
Proof.
  intros Hdf Hrun Hne Hnames.
  pose proof (map_crew_spec m df Hdf) as H. rewrite Hrun in H. simpl in H.
  destruct H as (Hp & _ & df' & Hm1 & _ & Hres).
  destruct (frame_ids df) as [|id ids] eqn:Hids; [done|].
  assert (Hid : id ∈ frame_ids df) by (rewrite Hids; left).
  apply elem_of_frame_ids in Hid as (i & l & row & j & Hi & Hid).
  destruct (Forall2_lookup_l _ _ _ _ _ Hres Hi) as ([l' row'] & Hi' & _ & Hrow).
  simpl in Hrow. destruct Hrow as (_ & H1 & H2 & H3).
  assert (Hj : all_names (names (self m)) (col_get j row) (col_get j row'))
    by (by destruct j).
  apply list_elem_of_lookup in Hid as [k Hk].
  destruct (all_names_lookup _ _ _ _ _ Hj Hk) as (name & Hname & Hfirst).
  apply first_name_Some in Hfirst as (r & Hr & _ & Hrn).
  assert (Hmiss : frame_missing (names (self m1)) df').
  { rewrite (pres_names _ _ Hp). exists i, l', row'. split; [done|].
    exists j, name. split; [by eapply list_elem_of_lookup_2|].
    apply first_name_None. intros r' Hr' Heq. apply (Hnames r r' Hr Hr'). congruence. }
  pose proof (map_crew_spec m1 df' Hm1) as H.
  destruct (map_crew m1) as [[e|[]] m2]; simpl in H.
  - destruct H as (_ & _ & _ & -> & _). by exists m2.
  - destruct H as (_ & _ & df2 & _ & _ & Hres2).
    by destruct (resolved_frame_not_missing _ _ _ Hres2).
Qed.

Lemma X8_second_pass_fails_witness :
  ∃ m2, map_crew (map_crew (run_merged run_names)).2 = (inl IndexError, m2).
Proof.
  apply (X8_second_pass_fails (run_merged run_names) (map_crew (run_merged run_names)).2
           (merged_of (init MOVIE_IDS run_crew run_principals run_names))).
  - reflexivity.
  - vm_compute. reflexivity.
  - vm_compute. discriminate.
  - intros r r' Hr Hr'. vm_compute in Hr, Hr'.
    repeat (apply elem_of_cons in Hr as [->|Hr]);
      try (by apply elem_of_nil in Hr);
      repeat (apply elem_of_cons in Hr' as [->|Hr']);
      try (by apply elem_of_nil in Hr'); simpl; discriminate.
Defined.

(** X9. The run completes, and writes crew_info.csv, exactly when every
    identifier of the merged table -- every piece of the directors and
    writers fields and every actor of the films kept -- has a row in the
    names table. *)
Theorem X9_run_completes_iff (ids : list string) (crew_tsv : DataFrame Crew.row)
    (principals_tsv : DataFrame Principals.row) (names_tsv : DataFrame Names.row)
    (fs : gmap string CsvFile) :
  (∃ m, pipeline ids crew_tsv principals_tsv names_tsv fs = (inr (), m) ∧
        is_Some (files m !! "crew_info.csv")) ↔
  ∀ id, id ∈ frame_ids (merged_of (init ids crew_tsv principals_tsv names_tsv)) →
        ∃ r, r ∈ names_tsv.*2 ∧ Names.nconst r = id.
Proof.
  pose proof (pipeline_spec ids crew_tsv principals_tsv names_tsv fs) as H.
  split.
  - intros (m & Hrun & _) id Hid. rewrite Hrun in H. simpl in H.
    destruct H as (df' & _ & _ & Hres & _).
    destruct (first_name names_tsv id) as [name|] eqn:Hfirst.
    + apply first_name_Some in Hfirst as (r & Hr & Hrid & _). by exists r.
    + destruct (resolved_frame_not_missing _ _ _ Hres).
      apply frame_missing_ids. by exists id.
  - intros Hall.
    destruct (pipeline ids crew_tsv principals_tsv names_tsv fs) as [[e|[]] m];
      simpl in H.
    + destruct H as (_ & (id & Hid & Hnone)%frame_missing_ids & _).
      destruct (Hall id Hid) as (r & Hr & Hrid).
      by destruct (proj1 (first_name_None _ _) Hnone r Hr).
    + destruct H as (df' & _ & _ & _ & Hfs). exists m. split; [done|].
      rewrite Hfs, lookup_insert_eq. by eexists.
Qed.

(** ** Beyond the specification: what the pass searches for *)

Lemma outcome_and {A : Type} (x : (exn + A) * Machine)
    (Q1 Q2 : A → Machine → Prop) (E1 E2 : exn → Machine → Prop) :
  outcome x Q1 E1 → outcome x Q2 E2 →
  outcome x (λ a m, Q1 a m ∧ Q2 a m) (λ e m, E1 e m ∧ E2 e m).
Proof. destruct x as [[e|a] m']; simpl; auto. Qed.

Lemma tracked_same (base seen seen' : list string) (m : Machine) :
  (∀ id, id ∈ seen ↔ id ∈ seen') → tracked base seen m → tracked base seen' m.
Proof.
  intros Hiff (qs & Hq & Hqs & Hmp). exists qs. split; [done|].
  split; intros id; [rewrite Hqs | rewrite Hmp]; apply Hiff.
Qed.

Lemma resolve_tracked (base seen : list string) (nconst : string) (m : Machine) :
  tracked base seen m →
  outcome (resolve nconst m)
    (λ _ m', tracked base (seen ++ [nconst]) m') (λ _ _, True).
Proof.
  intros (qs & Hq & Hqs & Hmp).
  unfold resolve, mbind, M_bind, get, modify, mret, M_ret, raise. simpl.
  destruct (mappings m !! nconst) as [v|] eqn:Hv; simpl.
  - assert (Hin : nconst ∈ seen) by (apply Hmp; by eexists).
    exists qs. split; [done|].
    split; intros id; [rewrite Hqs | rewrite Hmp]; rewrite elem_of_app,
      list_elem_of_singleton; split; auto; intros [?| ->]; done.
  - destruct (names_loc (names (self m)) nconst !! 0) as [name|]; simpl; [|done].
    exists (qs ++ [nconst]). simpl. split; [by rewrite Hq, <- app_assoc|].
    split; intros id.
    + rewrite !elem_of_app, Hqs. done.
    + rewrite elem_of_app, list_elem_of_singleton, <- Hmp.
      destruct (decide (nconst = id)) as [->|Hne].
      * rewrite lookup_insert_eq. split; [by right | by eexists].
      * rewrite lookup_insert_ne by done. split; [by left|].
        intros [?| ->]; done.
Qed.

Lemma for_nconst_tracked (base : list string) (field acc seen : list string)
    (m : Machine) :
  tracked base seen m →
  outcome (for_nconst field acc m)
    (λ _ m', tracked base (seen ++ field) m') (λ _ _, True).
Proof.
  revert acc seen m. induction field as [|id field IH]; intros acc seen m Ht.
  - simpl. by rewrite app_nil_r.
  - cbn [for_nconst].
    eapply outcome_bind; [by apply (resolve_tracked base seen)|].
    intros name m1 Ht1. cbv beta.
    eapply outcome_bind with (Q' := λ _ m', tracked base (seen ++ [id]) m').
    { simpl. destruct Ht1 as (qs & ? & ? & ?). by exists qs. }
    intros _ m2 Ht2. cbv beta.
    eapply outcome_weaken; [by apply IH| |done].
    intros ns m3 Ht3. by rewrite <- app_assoc in Ht3.
Qed.

Lemma map_cell_tracked (base seen : list string) (i : nat) (j : ListCol) (m : Machine)
    (df : DataFrame Merged.row) (l : nat) (row : Merged.row) :
  tracked base seen m → merged_crew (self m) = Some df → df !! i = Some (l, row) →
  outcome (map_cell i j m)
    (λ _ m', tracked base (seen ++ col_get j row) m') (λ _ _, True).
Proof.
  intros Ht Hdf Hi. unfold map_cell.
  apply outcome_bind with (Q' := λ field m', m' = m ∧ field = col_get j row).
  { unfold iloc_get, get_merged_crew, mbind, M_bind, get, mret, M_ret. simpl.
    rewrite Hdf. simpl. rewrite Hi. done. }
  intros field m' [-> ->].
  eapply outcome_bind; [by apply (for_nconst_tracked base _ [] seen)|].
  intros ns m1 (qs & Hq & Hqs & Hmp).
  unfold iloc_set, get_merged_crew, mbind, M_bind, get, mret, M_ret, modify, raise.
  simpl. destruct (merged_crew (self m1)) as [df1|]; simpl; [|done].
  destruct (df1 !! i); simpl; [|done]. by exists qs.
Qed.

Lemma for_columns_tracked (base seen : list string) (i : nat) (m : Machine)
    (df : DataFrame Merged.row) (l : nat) (row : Merged.row) :
  inv base m → tracked base seen m →
  merged_crew (self m) = Some df → df !! i = Some (l, row) →
  outcome (for_each [Col1; Col2; Col3] (λ j, map_cell i j) m)
    (λ _ m', tracked base (seen ++ row_ids row) m') (λ _ _, True).
Proof.
  intros Hinv Ht Hdf Hi. cbn [for_each].
  assert (Hlt : i < length df) by (by eapply lookup_lt_Some).
  eapply outcome_bind;
    [eapply outcome_weaken;
       [exact (outcome_and _ _ _ _ _ (map_cell_spec base i Col1 m df l row Hinv Hdf Hi)
              (map_cell_tracked base seen i Col1 m df l row Ht Hdf Hi))
       |intros ? ? HQ; exact HQ|done]|].
  intros _ m1 [(_ & Hinv1 & ns1 & _ & Hm1) Ht1].
  set (row1 := col_set Col1 ns1 row) in *.
  assert (Hi1 : <[i:=(l, row1)]> df !! i = Some (l, row1))
    by (by apply list_lookup_insert_eq).
  eapply outcome_bind;
    [eapply outcome_weaken;
       [exact (outcome_and _ _ _ _ _ (map_cell_spec base i Col2 m1 _ l row1 Hinv1 Hm1 Hi1)
              (map_cell_tracked base _ i Col2 m1 _ l row1 Ht1 Hm1 Hi1))
       |intros ? ? HQ; exact HQ|done]|].
  intros _ m2 [(_ & Hinv2 & ns2 & _ & Hm2) Ht2].
  rewrite list_insert_insert_eq in Hm2.
  set (row2 := col_set Col2 ns2 row1) in *.
  assert (Hi2 : <[i:=(l, row2)]> df !! i = Some (l, row2))
    by (by apply list_lookup_insert_eq).
  eapply outcome_bind;
    [exact (map_cell_tracked base _ i Col3 m2 _ l row2 Ht2 Hm2 Hi2)|].
  intros u m3 Ht3. subst row1 row2. simpl in Ht3 |- *.
  unfold row_ids. by rewrite !app_assoc.
Qed.

Lemma for_rows_tracked (base : list string) (n : nat) :
  ∀ (k : nat) (seen : list string) (m : Machine) (df : DataFrame Merged.row),
  inv base m → tracked base seen m →
  merged_crew (self m) = Some df → k + n = length df →
  outcome
    (for_each (seq k n) (λ i, for_each [Col1; Col2; Col3] (λ j, map_cell i j)) m)
    (λ _ m', tracked base (seen ++ frame_ids (drop k df)) m') (λ _ _, True).
Proof.
  induction n as [|n IH]; intros k seen m df Hinv Ht Hdf Hlen.
  - simpl. rewrite drop_ge by lia. unfold frame_ids. simpl. by rewrite app_nil_r.
  - cbn [seq for_each].
    destruct (lookup_lt_is_Some_2 df k) as [[l row] Hk]; [lia|].
    eapply outcome_bind;
      [eapply outcome_weaken;
       [exact (outcome_and _ _ _ _ _ (for_columns_spec base k m df l row Hinv Hdf Hk)
                (for_columns_tracked base seen k m df l row Hinv Ht Hdf Hk))
       |intros ? ? HQ; exact HQ|done]|].
    intros _ m1 [(_ & Hinv1 & row' & _ & Hm1) Ht1]. cbv beta.
    eapply outcome_weaken;
      [apply (IH (S k) _ m1 (<[k:=(l, row')]> df) Hinv1 Ht1 Hm1);
       rewrite length_insert; lia| |done].
    intros u m2 Ht2. cbv beta in Ht2. rewrite drop_insert_lt in Ht2 by lia.
    rewrite (drop_S _ _ _ Hk). unfold frame_ids in *.
    rewrite fmap_cons, bind_cons. simpl. by rewrite app_assoc.
Qed.

Lemma map_crew_tracked (m : Machine) (df : DataFrame Merged.row) :
  merged_crew (self m) = Some df →
  outcome (map_crew m)
    (λ _ m', preserved m m' ∧ inv (names_queries m) m' ∧
             tracked (names_queries m) (frame_ids df) m')
    (λ _ _, True).
Proof.
  intros Hdf. unfold map_crew.
  set (m0 := set_mappings ∅ m).
  assert (Hinv0 : inv (names_queries m) m0).
  { split; [intros id v; unfold m0; simpl; by rewrite lookup_empty|].
    exists []. split; [|by intros id ?%elem_of_nil].
    split; [by rewrite app_nil_r | constructor]. }
  assert (Ht0 : tracked (names_queries m) [] m0).
  { exists []. split; [by rewrite app_nil_r|]. split; [done|].
    intros id. unfold m0. simpl. rewrite lookup_empty. split.
    - by intros [? ?].
    - by intros ?%elem_of_nil. }
  apply outcome_bind with (Q' := λ _ m', m' = m0); [done|].
  intros _ _ ->.
  apply outcome_bind with (Q' := λ d m', m' = m0 ∧ d = df).
  { unfold get_merged_crew, mbind, M_bind, get, mret, M_ret. simpl.
    rewrite Hdf. done. }
  intros _ _ [-> ->].
  assert (Hp0 : preserved m m0) by (by split).
  eapply outcome_weaken;
    [exact (outcome_and _ _ _ _ _
              (for_rows_spec (names_queries m) (length df) 0 m0 df Hinv0 Hdf eq_refl)
              (for_rows_tracked (names_queries m) (length df) 0 [] m0 df
                 Hinv0 Ht0 Hdf eq_refl))| |done].
  intros _ m' [(Hp & Hinv & _) Ht]. split; [eauto using preserved_trans|].
  split; [done|]. by rewrite drop_0, app_nil_l in Ht.
Qed.

(** X10. After a pass of [map_crew] that returned, the identifiers the
    names table was searched for are exactly the identifiers of the
    merged table, each once; and [mappings] holds exactly those
    identifiers, each with its first name. *)
Theorem X10_one_search_per_identifier (m m' : Machine) (df : DataFrame Merged.row) :
  merged_crew (self m) = Some df →
  map_crew m = (inr (), m') →
  ∃ qs, names_queries m' = names_queries m ++ qs ∧
        NoDup qs ∧
        (∀ id, id ∈ qs ↔ id ∈ frame_ids df) ∧
        (∀ id, id ∈ frame_ids df →
               is_Some (mappings m' !! id) ∧
               mappings m' !! id = first_name (names (self m)) id) ∧
        (∀ id, id ∉ frame_ids df → mappings m' !! id = None).
Proof.
  intros Hdf Hrun. pose proof (map_crew_tracked m df Hdf) as H.
  rewrite Hrun in H. simpl in H.
  destruct H as (Hp & (Hc & qs0 & [Hq0 Hnd] & _) & qs & Hq & Hqs & Hmp).
  assert (qs0 = qs) as -> by (apply (app_inv_head (names_queries m)); congruence).
  exists qs. split; [done|]. split; [done|]. split; [done|]. split.
  - intros id Hid. apply Hmp in Hid as [v Hv]. split; [by eexists|].
    rewrite Hv. symmetry. rewrite <- (pres_names _ _ Hp). by apply Hc.
  - intros id Hid. destruct (mappings m' !! id) as [v|] eqn:Hv; [|done].
    destruct Hid. apply Hmp. by eexists.
Qed.

Lemma X10_one_search_per_identifier_witness :
  ∃ qs, names_queries (map_crew (run_merged run_names)).2
          = names_queries (run_merged run_names) ++ qs ∧
        NoDup qs ∧
        (∀ id, id ∈ qs ↔
               id ∈ frame_ids (merged_of (init MOVIE_IDS run_crew run_principals run_names))).
Proof.
  destruct (X10_one_search_per_identifier (run_merged run_names)
              (map_crew (run_merged run_names)).2
              (merged_of (init MOVIE_IDS run_crew run_principals run_names)))
    as (qs & Hq & Hnd & Hqs & _).
  - reflexivity.
  - vm_compute. reflexivity.
  - exists qs. split; [exact Hq|]. split; [exact Hnd | exact Hqs].
Defined.

(** ** Beyond the specification: the table after a failed pass *)

(** The loop over the rows from [k] on, when it raises: the rows before
    the failing one are resolved, those after it are untouched. *)
Lemma for_rows_fail (base : list string) (n : nat) :
  ∀ (k : nat) (m : Machine) (df : DataFrame Merged.row),
  inv base m → merged_crew (self m) = Some df → k + n = length df →
  outcome
    (for_each (seq k n) (λ i, for_each [Col1; Col2; Col3] (λ j, map_cell i j)) m)
    (λ _ _, True)
    (λ _ m', ∃ (df' : DataFrame Merged.row) (i l : nat) (row : Merged.row),
       merged_crew (self m') = Some df' ∧
       (k ≤ i)%nat ∧ df !! i = Some (l, row) ∧
       row_missing (names (self m)) row ∧
       (∀ j : nat, (j < k)%nat → df' !! j = df !! j) ∧
       (∀ (j l0 : nat) r, (k ≤ j < i)%nat → df !! j = Some (l0, r) →
          ∃ r', df' !! j = Some (l0, r') ∧ resolved (names (self m)) r r') ∧
       (∀ j : nat, (i < j)%nat → df' !! j = df !! j)).
Proof.
  induction n as [|n IH]; intros k m df Hinv Hdf Hlen; [done|].
  cbn [seq for_each].
  destruct (lookup_lt_is_Some_2 df k) as [[l row] Hk]; [lia|].
  eapply outcome_bind;
    [eapply outcome_weaken; [exact (for_columns_spec base k m df l row Hinv Hdf Hk)| |]|].
  { intros u m1 H. exact H. }
  { intros e m1 (_ & _ & (row' & _ & Hm) & _ & Hmiss).
    exists (<[k:=(l, row')]> df), k, l, row.
    split; [done|]. split; [done|]. split; [done|]. split; [done|].
    split; [|split].
    - intros j Hj. apply list_lookup_insert_ne. lia.
    - intros j l0 r Hj. lia.
    - intros j Hj. apply list_lookup_insert_ne. lia. }
  intros u m1 (Hp1 & Hinv1 & row' & Hres & Hm1). cbv beta.
  eapply outcome_weaken;
    [apply (IH (S k) m1 (<[k:=(l, row')]> df) Hinv1 Hm1); rewrite length_insert; lia
    |done|].
  intros e m2 (df' & i & l1 & row1 & Hm2 & Hi & Hrow1 & Hmiss & Hlow & Hmid & Hhigh).
  rewrite list_lookup_insert_ne in Hrow1 by lia.
  rewrite (pres_names _ _ Hp1) in Hmiss.
  exists df', i, l1, row1.
  split; [done|]. split; [lia|]. split; [done|]. split; [done|].
  split; [|split].
  - intros j Hj. rewrite Hlow by lia. apply list_lookup_insert_ne. lia.
  - intros j l0 r Hj Hr. destruct (decide (j = k)) as [->|Hne].
    + assert (l0 = l ∧ r = row) as [-> ->] by (split; congruence).
      exists row'. split; [|done]. rewrite Hlow by lia.
      apply list_lookup_insert_eq. by eapply lookup_lt_Some.
    + destruct (Hmid j l0 r) as (r' & Hr' & Hres'); [lia| |].
      { by rewrite list_lookup_insert_ne by done. }
      exists r'. split; [done|]. by rewrite <- (pres_names _ _ Hp1).
  - intros j Hj. rewrite Hhigh by lia. apply list_lookup_insert_ne. lia.
Qed.

(** X11. A pass of [map_crew] that raises does not undo its work: the
    merged table is left with every row before the first row holding an
    identifier without a name resolved, that row possibly half resolved,
    and every row after it still holding identifiers. *)
Theorem X11_failed_pass_leaves_partial_table (m m' : Machine)
    (df : DataFrame Merged.row) (e : exn) :
  merged_crew (self m) = Some df →
  map_crew m = (inl e, m') →
  e = IndexError ∧
  ∃ (df' : DataFrame Merged.row) (i l : nat) (row : Merged.row),
    merged_crew (self m') = Some df' ∧
    df !! i = Some (l, row) ∧
    row_missing (names (self m)) row ∧
    (∀ (j l0 : nat) r, (j < i)%nat → df !! j = Some (l0, r) →
       ¬ row_missing (names (self m)) r ∧
       ∃ r', df' !! j = Some (l0, r') ∧ resolved (names (self m)) r r') ∧
    (∀ j : nat, (i < j)%nat → df' !! j = df !! j).
Proof.
  intros Hdf Hrun. split.
  { pose proof (map_crew_spec m df Hdf) as H. rewrite Hrun in H. simpl in H.
    by destruct H as (_ & _ & _ & -> & _). }
  assert (H : outcome (map_crew m) (λ _ _, True)
    (λ _ m', ∃ (df' : DataFrame Merged.row) (i l : nat) (row : Merged.row),
       merged_crew (self m') = Some df' ∧
       (0 ≤ i)%nat ∧ df !! i = Some (l, row) ∧
       row_missing (names (self m)) row ∧
       (∀ j : nat, (j < 0)%nat → df' !! j = df !! j) ∧
       (∀ (j l0 : nat) r, (0 ≤ j < i)%nat → df !! j = Some (l0, r) →
          ∃ r', df' !! j = Some (l0, r') ∧ resolved (names (self m)) r r') ∧
       (∀ j : nat, (i < j)%nat → df' !! j = df !! j))).
  { unfold map_crew. set (m0 := set_mappings ∅ m).
    assert (Hinv0 : inv (names_queries m) m0).
    { split; [intros id v; unfold m0; simpl; by rewrite lookup_empty|].
      exists []. split; [|by intros id ?%elem_of_nil].
      split; [by rewrite app_nil_r | constructor]. }
    apply outcome_bind with (Q' := λ _ m', m' = m0); [done|].
    intros _ _ ->.
    apply outcome_bind with (Q' := λ d m', m' = m0 ∧ d = df).
    { unfold get_merged_crew, mbind, M_bind, get, mret, M_ret. simpl.
      rewrite Hdf. done. }
    intros _ _ [-> ->].
    exact (for_rows_fail (names_queries m) (length df) 0 m0 df Hinv0 Hdf eq_refl). }
  rewrite Hrun in H. simpl in H.
  destruct H as (df' & i & l & row & Hm' & _ & Hi & Hmiss & _ & Hmid & Hhigh).
  exists df', i, l, row. do 3 (split; [done|]). split; [|done].
  intros j l0 r Hj Hr. destruct (Hmid j l0 r) as (r' & Hr' & Hres); [lia|done|].
  split; [by eapply resolved_not_missing|]. by exists r'.
Qed.

Lemma X11_failed_pass_leaves_partial_table_witness :
  merged_crew (self (map_crew (run_merged run_names_short)).2)
    = Some [(0, {| Merged.tconst := "tt0050083";
                   Merged.directors := ["Sidney Lumet"];
                   Merged.writers := ["nm0741627"];
                   Merged.actors := ["nm0000020"; "nm0002011"] |})] ∧
  ∃ (df' : DataFrame Merged.row) (i l : nat) (row : Merged.row),
    merged_crew (self (map_crew (run_merged run_names_short)).2) = Some df' ∧
    merged_of (init MOVIE_IDS run_crew run_principals run_names_short) !! i
      = Some (l, row) ∧
    row_missing run_names_short row.
Proof.
  split; [vm_compute; reflexivity|].
  destruct (X11_failed_pass_leaves_partial_table (run_merged run_names_short)
              (map_crew (run_merged run_names_short)).2
              (merged_of (init MOVIE_IDS run_crew run_principals run_names_short))
              IndexError)
    as (_ & df' & i & l & row & Hm & Hi & Hmiss & _).
  - reflexivity.
  - vm_compute. reflexivity.
  - exists df', i, l, row. split; [exact Hm|]. split; [exact Hi | exact Hmiss].
Defined.

Lemma map_crew_preserved (m : Machine) : preserved m (map_crew m).2.
Proof.
  destruct (merged_crew (self m)) as [df|] eqn:Hdf.
  - pose proof (map_crew_spec m df Hdf) as H.
    destruct (map_crew m) as [[e|[]] m']; simpl in *; by destruct H as [? _].
  - rewrite (map_crew_unmerged _ Hdf). by split.
Qed.

(** X12. [merge_crew] rebuilds the merged table from the crew and
    principals tables alone: run again after a pass of [map_crew],
    whatever the outcome of that pass, it stores the table it stored
    before the pass, with identifiers in place of the names. *)
Theorem X12_merge_again_restores (m : Machine) :
  (merge_crew (map_crew (merge_crew m).2).2).1 = inr () ∧
  merged_crew (self (merge_crew (map_crew (merge_crew m).2).2).2)
    = merged_crew (self (merge_crew m).2) ∧
  merged_crew (self (merge_crew m).2) = Some (merged_of (self m)).
Proof.
  destruct (merge_crew_spec m) as (m1 & Hrun1 & Hp1 & Hm1 & _).
  rewrite Hrun1. cbn [snd].
  pose proof (map_crew_preserved m1) as Hp2.
  destruct (merge_crew_spec (map_crew m1).2) as (m3 & Hrun3 & _ & Hm3 & _).
  rewrite Hrun3. cbn [fst snd]. split; [done|]. split; [|done].
  rewrite Hm3, Hm1. unfold merged_of.
  by rewrite (pres_crew _ _ Hp2), (pres_principals _ _ Hp2),
    (pres_crew _ _ Hp1), (pres_principals _ _ Hp1).
Qed.
